(** * UX-audit analyse route: signal extraction, prompt building and
      provider stream normalisation

    A shallow embedding of the two versions of the analyse route handler
    found in the repository ([src/unnamed/part_000], the two-provider
    handler with a one-shot gemini call, and
    [src/app/api/analyze/route.ts], the three-provider streaming handler),
    together with the parts of the JavaScript runtime and of cheerio they
    rely on. *)

From Stdlib Require Import List NArith Bool Ascii String Lia Arith Permutation.
From Stdlib Require Import Numbers.DecimalString.
Import ListNotations.

Set Implicit Arguments.
Set Warnings "-register-all".

(* ================================================================== *)
(** * JavaScript strings *)
(* ================================================================== *)

(** A JavaScript string is a sequence of UTF-16 code units. *)
Definition jsstring := list N.

(** Literals: [js] reads every character of an ASCII literal as one code
    unit; [jq] does the same and reads an apostrophe as a double quote, so
    that JSON text can be written down. *)
Definition js (s : string) : jsstring :=
  map N_of_ascii (list_ascii_of_string s).

Definition jq (s : string) : jsstring :=
  map (fun c => if N.eqb c 39 then 34%N else c) (js s).

Definition nl : jsstring := [10%N].

Fixpoint str_eqb (a b : jsstring) : bool :=
  match a, b with
  | [], [] => true
  | x :: a', y :: b' => N.eqb x y && str_eqb a' b'
  | _, _ => false
  end.

(** Truthiness of a string: only the empty string is falsy. *)
Definition nonempty (s : jsstring) : bool :=
  match s with [] => false | _ => true end.

(** [a || b] on strings. *)
Definition str_or (a b : jsstring) : jsstring :=
  if nonempty a then a else b.

(** [x || b] where [x] may be undefined. *)
Definition opt_or (x : option jsstring) (b : jsstring) : jsstring :=
  match x with Some a => str_or a b | None => b end.

(** [String.prototype.startsWith]. *)
Fixpoint startsWith (p s : jsstring) : bool :=
  match p, s with
  | [], _ => true
  | x :: p', y :: s' => N.eqb x y && startsWith p' s'
  | _ :: _, [] => false
  end.

(** [String.prototype.includes]. *)
Fixpoint includes (p s : jsstring) : bool :=
  startsWith p s ||
  match s with
  | [] => false
  | _ :: s' => includes p s'
  end.

(** [s.slice(0, n)]. *)
Definition slice0 (n : nat) (s : jsstring) : jsstring := firstn n s.

(** White space and line terminators, as used by [trim] and by [\s]. *)
Definition is_space (c : N) : bool :=
  ((9 <=? c) && (c <=? 13) || (c =? 32) || (c =? 160) || (c =? 5760)
   || (8192 <=? c) && (c <=? 8202) || (c =? 8232) || (c =? 8233)
   || (c =? 8239) || (c =? 8287) || (c =? 12288) || (c =? 65279))%N.

Fixpoint trimStart (s : jsstring) : jsstring :=
  match s with
  | c :: s' => if is_space c then trimStart s' else s
  | [] => []
  end.

(** [String.prototype.trim]. *)
Definition trim (s : jsstring) : jsstring :=
  rev (trimStart (rev (trimStart s))).

(** Lower-casing of the letters A to Z, which is all that the
    case-insensitive tests of the handlers can observe: their patterns
    consist of ASCII letters and punctuation. *)
Definition lower (c : N) : N :=
  if ((65 <=? c) && (c <=? 90))%N then (c + 32)%N else c.

Definition startsWith_ci (p s : jsstring) : bool :=
  startsWith (map lower p) (map lower s).

(** Decimal rendering of a count, as a template literal does it. *)
Definition of_nat (n : nat) : jsstring :=
  js (NilEmpty.string_of_uint (Nat.to_uint n)).

Definition of_bool (b : bool) : jsstring :=
  if b then js "true" else js "false".

(** ** [split] *)

Definition is_nl (c : N) : bool := N.eqb c 10.

Definition cons_head (c : N) (l : list jsstring) : list jsstring :=
  match l with
  | h :: t => (c :: h) :: t
  | [] => [[c]]
  end.

(** [s.split("\n")]: the pieces between line feeds, in order. *)
Fixpoint split_lines (s : jsstring) : list jsstring :=
  match s with
  | [] => [[]]
  | c :: r => if is_nl c then [] :: split_lines r
              else cons_head c (split_lines r)
  end.

(** [s.split("\n\n")]: the separator is matched leftmost first and the
    matches do not overlap. *)
Fixpoint split_blank (s : jsstring) : list jsstring :=
  match s with
  | [] => [[]]
  | c :: r =>
      match r with
      | d :: r' =>
          if is_nl c && is_nl d then [] :: split_blank r'
          else cons_head c (split_blank r)
      | [] => [[c]]
      end
  end.

(** [lines.filter(Boolean)] on strings. *)
Definition filter_nonempty (l : list jsstring) : list jsstring :=
  filter nonempty l.

(** [events.pop()]: the last element and the rest. *)
Definition pop_last (l : list jsstring) : list jsstring * option jsstring :=
  match rev l with
  | [] => ([], None)
  | x :: r => (rev r, Some x)
  end.

(* ================================================================== *)
(** * JSON values, [JSON.parse] and [JSON.stringify] *)
(* ================================================================== *)

(** A number keeps the literal it was read from: the handlers only test
    numbers for truthiness and write them back, and rounding to a double
    is outside this development (so a number is written back as it was
    read, and a non-zero literal too small for a double counts as
    non-zero). An object keeps its members in source order, repeated
    names included. *)
Inductive json : Type :=
| JNull
| JBool (b : bool)
| JNum (lit : jsstring)
| JStr (s : jsstring)
| JArr (items : list json)
| JObj (members : list (jsstring * json)).

(** ** Own properties of an object *)

Section Props.
Variable V : Type.

(** Defining a property: a name already present keeps its place and
    takes the new value. *)
Fixpoint set_prop (k : jsstring) (v : V) (l : list (jsstring * V))
  : list (jsstring * V) :=
  match l with
  | [] => [(k, v)]
  | (k', v') :: r =>
      if str_eqb k k' then (k, v) :: r else (k', v') :: set_prop k v r
  end.

Definition define_all (members : list (jsstring * V))
  : list (jsstring * V) :=
  fold_left (fun acc kv => set_prop (fst kv) (snd kv) acc) members [].

Fixpoint lookup (k : jsstring) (l : list (jsstring * V)) : option V :=
  match l with
  | [] => None
  | (k', v) :: r => if str_eqb k k' then Some v else lookup k r
  end.
End Props.

Definition is_digit (c : N) : bool := ((48 <=? c) && (c <=? 57))%N.

Definition digits_value (s : jsstring) : N :=
  fold_left (fun acc c => (10 * acc + (c - 48))%N) s 0%N.

(** An array index is a canonical decimal numeral below 2^32 - 1. *)
Definition index_of_key (k : jsstring) : option N :=
  match k with
  | [] => None
  | c :: r =>
      if forallb is_digit k && (negb (N.eqb c 48) || negb (nonempty r))
         && (digits_value k <=? 4294967294)%N
      then Some (digits_value k) else None
  end.

Section Order.
Variable V : Type.

Fixpoint insert_index (i : N) (kv : jsstring * V)
         (l : list (N * (jsstring * V))) : list (N * (jsstring * V)) :=
  match l with
  | [] => [(i, kv)]
  | (j, kv') :: r =>
      if (i <? j)%N then (i, kv) :: l else (j, kv') :: insert_index i kv r
  end.

(** Enumeration order of own properties: array indices in ascending
    order, then the other names in order of creation. *)
Definition own_props (members : list (jsstring * V))
  : list (jsstring * V) :=
  let ps := define_all members in
  let idx := fold_left
               (fun acc kv => match index_of_key (fst kv) with
                              | Some i => insert_index i kv acc
                              | None => acc
                              end) ps [] in
  map snd idx ++
  filter (fun kv => match index_of_key (fst kv) with
                    | Some _ => false | None => true end) ps.
End Order.

(** ** Values as the handlers see them *)

(** A property read gives a value or [undefined] ([None]). *)
Definition jsval := option json.

(** [x.name] for a name that no built-in prototype defines (such as
    [response], [candidates], [content], [parts], [text], [choices],
    [delta]); [x] is neither [null] nor [undefined]. *)
Definition get_field (name : jsstring) (x : json) : jsval :=
  match x with
  | JObj ms => lookup name (define_all ms)
  | _ => None
  end.

(** [x[0]]; [x] is neither [null] nor [undefined]. *)
Definition get_first (x : json) : jsval :=
  match x with
  | JArr l => nth_error l 0
  | JStr s => match s with c :: _ => Some (JStr [c]) | [] => None end
  | JObj ms => lookup (js "0") (define_all ms)
  | _ => None
  end.

(** [x?.name] and [x?.[0]]. *)
Definition opt_field (name : jsstring) (x : jsval) : jsval :=
  match x with
  | None | Some JNull => None
  | Some v => get_field name v
  end.

Definition opt_first (x : jsval) : jsval :=
  match x with
  | None | Some JNull => None
  | Some v => get_first v
  end.

(** The mantissa of a number literal is the part before the exponent. *)
Fixpoint mantissa (lit : jsstring) : jsstring :=
  match lit with
  | [] => []
  | c :: r => if (N.eqb c 101 || N.eqb c 69) then [] else c :: mantissa r
  end.

Definition num_nonzero (lit : jsstring) : bool :=
  existsb (fun c => is_digit c && negb (N.eqb c 48)) (mantissa lit).

(** Truthiness. *)
Definition truthy (x : jsval) : bool :=
  match x with
  | None | Some JNull => false
  | Some (JBool b) => b
  | Some (JNum lit) => num_nonzero lit
  | Some (JStr s) => nonempty s
  | Some (JArr _) | Some (JObj _) => true
  end.

(** ** [JSON.stringify] *)

Definition hex_digit (d : N) : N :=
  if (d <? 10)%N then (48 + d)%N else (87 + d)%N.

Definition hex4 (c : N) : jsstring :=
  [hex_digit (c / 4096 mod 16); hex_digit (c / 256 mod 16);
   hex_digit (c / 16 mod 16); hex_digit (c mod 16)]%N.

Definition is_high (c : N) : bool := ((55296 <=? c) && (c <=? 56319))%N.
Definition is_low (c : N) : bool := ((56320 <=? c) && (c <=? 57343))%N.

Definition escape_unit (c : N) : jsstring :=
  if N.eqb c 8 then js "\b"
  else if N.eqb c 9 then js "\t"
  else if N.eqb c 10 then js "\n"
  else if N.eqb c 12 then js "\f"
  else if N.eqb c 13 then js "\r"
  else if N.eqb c 34 then [92; 34]%N
  else if N.eqb c 92 then [92; 92]%N
  else if (c <? 32)%N || is_high c || is_low c then js "\u" ++ hex4 c
  else [c].

(** The body of a quoted string: a surrogate pair is kept, a lone
    surrogate is escaped. *)
Fixpoint quote_body (s : jsstring) : jsstring :=
  match s with
  | [] => []
  | c :: r =>
      match r with
      | d :: r' =>
          if is_high c && is_low d then c :: d :: quote_body r'
          else escape_unit c ++ quote_body r
      | [] => escape_unit c
      end
  end.

Definition quote (s : jsstring) : jsstring :=
  [34%N] ++ quote_body s ++ [34%N].

Fixpoint join (sep : jsstring) (l : list jsstring) : jsstring :=
  match l with
  | [] => []
  | [x] => x
  | x :: r => x ++ sep ++ join sep r
  end.

Fixpoint JSON_stringify (v : json) : jsstring :=
  match v with
  | JNull => js "null"
  | JBool b => of_bool b
  | JNum lit => lit
  | JStr s => quote s
  | JArr l => js "[" ++ join (js ",") (map JSON_stringify l) ++ js "]"
  | JObj ms =>
      js "{" ++
      join (js ",")
        (map (fun kv => quote (fst kv) ++ js ":" ++ snd kv)
           (own_props (map (fun kv => (fst kv, JSON_stringify (snd kv))) ms)))
      ++ js "}"
  end.

(** ** [JSON.parse] *)

(** The text is first cut into tokens, one code unit at a time, and the
    tokens are then assembled with an explicit stack of open arrays and
    objects. A syntax error is [None], where [JSON.parse] throws. *)

Inductive token : Type :=
| TLBrace | TRBrace | TLBracket | TRBracket | TColon | TComma
| TScalar (v : json).

(** Number literals: an optional minus sign; a zero, or a non-zero digit
    and further digits; optionally a dot and digits; optionally an
    exponent mark, a sign and digits. *)
Fixpoint skip_digits (s : jsstring) : jsstring :=
  match s with
  | c :: r => if is_digit c then skip_digits r else s
  | [] => []
  end.

Definition some_digits (s : jsstring) : option jsstring :=
  match s with
  | c :: r => if is_digit c then Some (skip_digits r) else None
  | [] => None
  end.

Definition number_int (s : jsstring) : option jsstring :=
  match s with
  | c :: r =>
      if N.eqb c 48 then Some r
      else if is_digit c then Some (skip_digits r)
      else None
  | [] => None
  end.

Definition number_frac (s : jsstring) : option jsstring :=
  match s with
  | c :: r => if N.eqb c 46 then some_digits r else Some s
  | [] => Some s
  end.

Definition number_exp (s : jsstring) : option jsstring :=
  match s with
  | c :: r =>
      if N.eqb c 101 || N.eqb c 69 then
        match r with
        | d :: r' => if N.eqb d 43 || N.eqb d 45 then some_digits r'
                     else some_digits r
        | [] => None
        end
      else Some s
  | [] => Some s
  end.

Definition is_number (lit : jsstring) : bool :=
  let body := match lit with
              | c :: r => if N.eqb c 45 then r else lit
              | [] => lit
              end in
  match number_int body with
  | Some r1 =>
      match number_frac r1 with
      | Some r2 =>
          match number_exp r2 with
          | Some [] => true
          | _ => false
          end
      | None => false
      end
  | None => false
  end.

(** A maximal run of letters, digits, signs and dots is a number or one
    of the three literal names. *)
Definition is_word_unit (c : N) : bool :=
  (is_digit c || (c =? 43) || (c =? 45) || (c =? 46)
   || (97 <=? c) && (c <=? 122) || (65 <=? c) && (c <=? 90))%N.

Definition word_token (w : jsstring) : option token :=
  if str_eqb w (js "true") then Some (TScalar (JBool true))
  else if str_eqb w (js "false") then Some (TScalar (JBool false))
  else if str_eqb w (js "null") then Some (TScalar JNull)
  else if is_number w then Some (TScalar (JNum w))
  else None.

Definition is_json_ws (c : N) : bool :=
  ((c =? 32) || (c =? 9) || (c =? 10) || (c =? 13))%N.

Definition hex_value (c : N) : option N :=
  if is_digit c then Some (c - 48)%N
  else if ((97 <=? c) && (c <=? 102))%N then Some (c - 87)%N
  else if ((65 <=? c) && (c <=? 70))%N then Some (c - 55)%N
  else None.

(** Lexer states; accumulated text is kept reversed. *)
Inductive lex_state : Type :=
| LIdle
| LStr (acc : jsstring)
| LEsc (acc : jsstring)
| LUni (acc : jsstring) (seen : nat) (value : N)
| LWord (acc : jsstring).

Definition lex_idle (c : N) : option (lex_state * list token) :=
  if is_json_ws c then Some (LIdle, [])
  else if N.eqb c 123 then Some (LIdle, [TLBrace])
  else if N.eqb c 125 then Some (LIdle, [TRBrace])
  else if N.eqb c 91 then Some (LIdle, [TLBracket])
  else if N.eqb c 93 then Some (LIdle, [TRBracket])
  else if N.eqb c 58 then Some (LIdle, [TColon])
  else if N.eqb c 44 then Some (LIdle, [TComma])
  else if N.eqb c 34 then Some (LStr [], [])
  else if is_word_unit c then Some (LWord [c], [])
  else None.

Definition lex_escape (c : N) : option N :=
  if N.eqb c 34 then Some 34%N
  else if N.eqb c 92 then Some 92%N
  else if N.eqb c 47 then Some 47%N
  else if N.eqb c 98 then Some 8%N
  else if N.eqb c 102 then Some 12%N
  else if N.eqb c 110 then Some 10%N
  else if N.eqb c 114 then Some 13%N
  else if N.eqb c 116 then Some 9%N
  else None.

(** One code unit: the next state and the tokens completed by it. *)
Definition lex_step (st : lex_state) (c : N)
  : option (lex_state * list token) :=
  match st with
  | LIdle => lex_idle c
  | LStr acc =>
      if N.eqb c 34 then Some (LIdle, [TScalar (JStr (rev acc))])
      else if N.eqb c 92 then Some (LEsc acc, [])
      else if (c <? 32)%N then None
      else Some (LStr (c :: acc), [])
  | LEsc acc =>
      if N.eqb c 117 then Some (LUni acc 0 0%N, [])
      else match lex_escape c with
           | Some u => Some (LStr (u :: acc), [])
           | None => None
           end
  | LUni acc seen value =>
      match hex_value c with
      | Some d =>
          let value' := (16 * value + d)%N in
          if Nat.eqb seen 3 then Some (LStr (value' :: acc), [])
          else Some (LUni acc (S seen) value', [])
      | None => None
      end
  | LWord acc =>
      if is_word_unit c then Some (LWord (c :: acc), [])
      else match word_token (rev acc), lex_idle c with
           | Some t, Some (st', ts) => Some (st', t :: ts)
           | _, _ => None
           end
  end.

Fixpoint lex (st : lex_state) (s : jsstring) : option (list token) :=
  match s with
  | [] =>
      match st with
      | LIdle => Some []
      | LWord acc => match word_token (rev acc) with
                     | Some t => Some [t]
                     | None => None
                     end
      | _ => None
      end
  | c :: r =>
      match lex_step st c with
      | Some (st', ts) =>
          match lex st' r with
          | Some rest => Some (ts ++ rest)
          | None => None
          end
      | None => None
      end
  end.

(** Open containers: an array with the items read so far, or an object
    with the members read so far and the name awaiting its value (both
    reversed). *)
Inductive frame : Type :=
| FArr (done : list json)
| FObj (done : list (jsstring * json)) (key : jsstring).

Inductive pstate : Type :=
| PValue (st : list frame)
| PArrStart (st : list frame)
| PObjStart (st : list frame)
| PKey (done : list (jsstring * json)) (st : list frame)
| PColon (done : list (jsstring * json)) (key : jsstring) (st : list frame)
| PAfter (v : json) (st : list frame).

Definition open_value (t : token) (st : list frame) : option pstate :=
  match t with
  | TScalar v => Some (PAfter v st)
  | TLBracket => Some (PArrStart st)
  | TLBrace => Some (PObjStart st)
  | _ => None
  end.

Definition parse_step (p : pstate) (t : token) : option pstate :=
  match p with
  | PValue st => open_value t st
  | PArrStart st =>
      match t with
      | TRBracket => Some (PAfter (JArr []) st)
      | _ => open_value t (FArr [] :: st)
      end
  | PObjStart st =>
      match t with
      | TRBrace => Some (PAfter (JObj []) st)
      | TScalar (JStr k) => Some (PColon [] k st)
      | _ => None
      end
  | PKey done st =>
      match t with
      | TScalar (JStr k) => Some (PColon done k st)
      | _ => None
      end
  | PColon done k st =>
      match t with
      | TColon => Some (PValue (FObj done k :: st))
      | _ => None
      end
  | PAfter v st =>
      match st, t with
      | FArr done :: st', TComma => Some (PValue (FArr (v :: done) :: st'))
      | FArr done :: st', TRBracket =>
          Some (PAfter (JArr (rev (v :: done))) st')
      | FObj done k :: st', TComma => Some (PKey ((k, v) :: done) st')
      | FObj done k :: st', TRBrace =>
          Some (PAfter (JObj (rev ((k, v) :: done))) st')
      | _, _ => None
      end
  end.

Fixpoint parse_tokens (p : pstate) (ts : list token) : option json :=
  match ts with
  | [] => match p with
          | PAfter v [] => Some v
          | _ => None
          end
  | t :: r => match parse_step p t with
              | Some p' => parse_tokens p' r
              | None => None
              end
  end.

Definition JSON_parse (text : jsstring) : option json :=
  match lex LIdle text with
  | Some ts => parse_tokens (PValue []) ts
  | None => None
  end.

(* ================================================================== *)
(** * The document tree and cheerio's selections *)
(* ================================================================== *)

(** What [cheerio.load] builds: text, comments and elements; attribute
    names are unique within an element. *)
Inductive node : Type :=
| NText (data : jsstring)
| NComment (data : jsstring)
| NElem (name : jsstring) (attribs : list (jsstring * jsstring))
        (children : list node).

Definition document := list node.

(** The elements below a node, the node included, in document order. *)
Fixpoint elements_of (n : node) : list node :=
  match n with
  | NElem _ _ cs => n :: flat_map elements_of cs
  | _ => []
  end.

Definition all_elements (d : document) : list node :=
  flat_map elements_of d.

(** [.text()]: the text nodes below an element, concatenated. *)
Fixpoint textContent (n : node) : jsstring :=
  match n with
  | NText d => d
  | NComment _ => []
  | NElem _ _ cs => List.concat (map textContent cs)
  end.

(** The text that [:contains] searches: as above, with a line feed for
    each [br] element. *)
Fixpoint getText (n : node) : jsstring :=
  match n with
  | NText d => d
  | NComment _ => []
  | NElem name _ cs =>
      if str_eqb name (js "br") then nl else List.concat (map getText cs)
  end.

(** ** Selectors *)

Inductive attr_test : Type :=
| AExists
| AEquals (v : jsstring) (ignoreCase : bool)
| AAny (v : jsstring)
| AWord (v : jsstring).

Inductive simple : Type :=
| STag (name : jsstring)
| SUniversal
| SAttr (name : jsstring) (t : attr_test)
| SContains (text : jsstring).

(** A compound selector is a conjunction of simple ones; a selector list
    (written with commas) is a union of compounds. *)
Definition compound := list simple.
Definition selector := list compound.

(** The white-space separated words of an attribute value. *)
Fixpoint words_from (cur : jsstring) (s : jsstring) : list jsstring :=
  match s with
  | [] => [rev cur]
  | c :: r => if is_space c then rev cur :: words_from [] r
              else words_from (c :: cur) r
  end.

Definition words (s : jsstring) : list jsstring :=
  filter_nonempty (words_from [] s).

Definition attr_matches (t : attr_test) (value : jsstring) : bool :=
  match t with
  | AExists => true
  | AEquals v false => str_eqb value v
  | AEquals v true => str_eqb (map lower value) (map lower v)
  | AAny v => nonempty v && includes v value
  | AWord v => existsb (str_eqb v) (words value)
  end.

Definition simple_matches (s : simple) (e : node) : bool :=
  match e with
  | NElem name attrs _ =>
      match s with
      | STag n => str_eqb n name
      | SUniversal => true
      | SAttr a t =>
          match lookup a attrs with
          | Some v => attr_matches t v
          | None => false
          end
      | SContains txt => includes txt (getText e)
      end
  | _ => false
  end.

Definition compound_matches (c : compound) (e : node) : bool :=
  forallb (fun s => simple_matches s e) c.

Definition selector_matches (sel : selector) (e : node) : bool :=
  existsb (fun c => compound_matches c e) sel.

(** [$(sel)]: the elements of the document that match, each once, in
    document order. *)
Definition select (sel : selector) (d : document) : list node :=
  filter (selector_matches sel) (all_elements d).

(** [.first()] and [.text()] on a selection. *)
Definition first (l : list node) : list node := firstn 1 l.

Definition text (l : list node) : jsstring := List.concat (map textContent l).

(** Shorthands for the selectors of the handlers. [type] is one of the
    attributes whose values HTML compares without regard to case. *)
Definition class_ (c : string) : simple := SAttr (js "class") (AWord (js c)).
Definition tag (n : string) : simple := STag (js n).
Definition attr_eq (a v : string) : simple :=
  SAttr (js a) (AEquals (js v) false).

Record signals : Type := {
  title : jsstring;
  hasViewport : bool;
  forms : nat;
  inputs : nat;
  labels : nat;
  buttons : nat;
  primaryCtaGuess : jsstring;
  hasInlineValidationHint : bool;
  hasProgress : bool
}.

(** The selectors the two handlers share. *)
Definition sel_title : selector := [[tag "title"]].
Definition sel_viewport : selector := [[tag "meta"; attr_eq "name" "viewport"]].
Definition sel_form : selector := [[tag "form"]].
Definition sel_inputs : selector :=
  [[tag "input"]; [tag "select"]; [tag "textarea"]].
Definition sel_label : selector := [[tag "label"]].
Definition cta_submit : compound :=
  [tag "button"; SAttr (js "type") (AEquals (js "submit") true)].
Definition cta_sign_in : compound := [tag "button"; SContains (js "Sign in")].
Definition cta_buy : compound := [tag "button"; SContains (js "Buy")].
Definition cta_anchor : compound := [tag "a"; class_ "button"].
Definition sel_cta : selector := [cta_submit; cta_sign_in; cta_buy; cta_anchor].
Definition sel_validation : selector :=
  [[SUniversal; SAttr (js "aria-invalid") AExists];
   [class_ "error"]; [class_ "error-message"]].
Definition sel_progress : selector :=
  [[tag "progress"]; [class_ "step"]; [attr_eq "aria-current" "step"]].

(* ================================================================== *)
(** * Requests, responses and the outside world *)
(* ================================================================== *)

(** The decoded request body, with the types the handlers declare. *)
Record request : Type := {
  url : option jsstring;
  html : option jsstring;
  provider : jsstring;
  key : option jsstring;
  model : option jsstring
}.

(** A POST to a model provider and what comes back: the status and the
    body as the decoded chunks the reader delivers. *)
Record call : Type := {
  endpoint : jsstring;
  call_headers : list (jsstring * jsstring);
  payload : json
}.

Record reply : Type := {
  reply_status : N;
  chunks : list jsstring
}.

Definition ok (r : reply) : bool :=
  ((200 <=? reply_status r) && (reply_status r <=? 299))%N.

(** [await r.text()]. *)
Definition reply_text (r : reply) : jsstring := List.concat (chunks r).

(** Everything a handler reaches outside itself: the page fetch (with the
    fixed user agent; [None] when the fetch or the read of its body
    rejects), the model providers ([None] when the fetch rejects), the
    process environment and cheerio's parser. *)
Record world : Type := {
  page : jsstring -> option jsstring;
  upstream : call -> option reply;
  env : jsstring -> option jsstring;
  load : jsstring -> document
}.

Inductive event : Type :=
| PageFetch (u : jsstring)
| ModelFetch (c : call).

Definition is_model_fetch (e : event) : bool :=
  match e with ModelFetch _ => true | PageFetch _ => false end.

(** A response: the chunks of its body are the writes of the handler, in
    order; a body given at once is a single chunk. *)
Record response : Type := {
  status : N;
  headers : list (jsstring * jsstring);
  body : list jsstring
}.

(** A run of a handler: the outbound fetches it made, in order, and the
    response, or [None] when the handler rejects. *)
Record run : Type := {
  events : list event;
  result : option response
}.

Definition body_text (r : response) : jsstring := List.concat (body r).

Definition content_json : list (jsstring * jsstring) :=
  [(js "Content-Type", js "application/json")].
Definition content_text : list (jsstring * jsstring) :=
  [(js "Content-Type", js "text/plain; charset=utf-8")].
Definition content_chunked : list (jsstring * jsstring) :=
  [(js "Content-Type", js "text/plain; charset=utf-8");
   (js "Transfer-Encoding", js "chunked")].

(** [{ error: msg }] with status 400. *)
Definition error_response (msg : jsstring) : response :=
  {| status := 400;
     headers := content_json;
     body := [JSON_stringify (JObj [(js "error", JStr msg)])] |}.

(** One written record: [JSON.stringify({ delta: v }) + "\n"]. *)
Definition delta_line (v : json) : jsstring :=
  JSON_stringify (JObj [(js "delta", v)]) ++ nl.

Definition write_if_truthy (v : jsval) : list json :=
  match v with
  | Some x => if truthy v then [x] else []
  | None => []
  end.

(** ** The line-by-line loop (local generate API) *)

(** The value written for one line, if any: a line that does not parse,
    or parses to [null], throws inside the [try] and is skipped. *)
Definition ollama_line (line : jsstring) : list json :=
  match JSON_parse line with
  | None => []
  | Some JNull => []
  | Some obj => write_if_truthy (get_field (js "response") obj)
  end.

(** One read: [chunk.split("\n").filter(Boolean)], each line in turn. *)
Definition ollama_chunk (chunk : jsstring) : list json :=
  flat_map ollama_line (filter_nonempty (split_lines chunk)).

(** The whole loop, until the reader is done. *)
Definition ollama_deltas (cs : list jsstring) : list json :=
  flat_map ollama_chunk cs.

Definition ollama_pump (cs : list jsstring) : list jsstring :=
  map delta_line (ollama_deltas cs).

(* ================================================================== *)
(** * The handler of [src/unnamed/part_000] *)
(* ================================================================== *)

Module Part000.

Definition sel_buttons : selector :=
  [[tag "button"]; [tag "a"; attr_eq "role" "button"]; [class_ "btn"];
   [SAttr (js "data-testid") (AAny (js "button"))]].

Definition runRules (d : document) : signals :=
  {| title := trim (text (first (select sel_title d)));
     hasViewport := negb (Nat.eqb (List.length (select sel_viewport d)) 0);
     forms := List.length (select sel_form d);
     inputs := List.length (select sel_inputs d);
     labels := List.length (select sel_label d);
     buttons := List.length (select sel_buttons d);
     primaryCtaGuess := trim (text (first (select sel_cta d)));
     hasInlineValidationHint :=
       negb (Nat.eqb (List.length (select sel_validation d)) 0);
     hasProgress := negb (Nat.eqb (List.length (select sel_progress d)) 0)
  |}.

(** The three code units between [5] and [10] are those of the source
    file as it stands. *)
Definition buildPrompt (html : jsstring) (s : signals) : jsstring :=
  js "You are a UX auditor." ++ nl ++
  js "Analyse the provided page using the extracted signals and the raw HTML." ++ nl ++
  js "Return 5" ++ [226; 8364; 8220]%N ++
  js "10 actionable usability improvements in Markdown, grouped by High, Medium, and Low priority." ++ nl ++
  js "For each item include: Issue, Impact, Recommendation. Use concise British English." ++ nl ++
  js "Do not wrap the whole response in code fences." ++ nl ++
  nl ++
  js "### Extracted signals" ++ nl ++
  js "- title: " ++ str_or (title s) (js "(none)") ++ nl ++
  js "- hasViewport: " ++ of_bool (hasViewport s) ++ nl ++
  js "- forms: " ++ of_nat (forms s) ++ js ", inputs: " ++ of_nat (inputs s)
    ++ js ", labels: " ++ of_nat (labels s) ++ nl ++
  js "- buttons: " ++ of_nat (buttons s) ++ jq ", primaryCtaGuess: '"
    ++ str_or (primaryCtaGuess s) (js "(none)") ++ jq "'" ++ nl ++
  js "- hasInlineValidationHint: " ++ of_bool (hasInlineValidationHint s) ++ nl ++
  js "- hasProgress: " ++ of_bool (hasProgress s) ++ nl ++
  nl ++
  js "### Raw HTML (may be truncated)" ++ nl ++
  slice0 4000 html ++ nl.

(** [/^https?:\/\//i.test(u)]. *)
Definition is_http_url (u : jsstring) : bool :=
  startsWith_ci (js "http://") u || startsWith_ci (js "https://") u.

(** Lines 64 to 70: the markup to analyse and the page fetch made for
    it, if any. *)
Definition resolve_input (w : world) (req : request)
  : list event * jsstring :=
  let rawHtml := opt_or (html req) [] in
  match url req with
  | Some u =>
      if negb (nonempty rawHtml) && nonempty u && is_http_url u then
        match page w u with
        | Some t => ([PageFetch u], t)
        | None => ([PageFetch u], rawHtml)
        end
      else ([], rawHtml)
  | None => ([], rawHtml)
  end.

(** [/^gpt-|^gemini/i.test(m)]. *)
Definition foreign_model (m : jsstring) : bool :=
  startsWith_ci (js "gpt-") m || startsWith_ci (js "gemini") m.

Definition ollama_model (req : request) : jsstring :=
  let modelName := opt_or (model req) (js "deepseek-r1:14b") in
  if foreign_model modelName then js "deepseek-r1:14b" else modelName.

Definition ollama_call (req : request) (prompt : jsstring) : call :=
  {| endpoint := js "http://localhost:11434/api/generate";
     call_headers := content_json;
     payload := JObj [(js "model", JStr (ollama_model req));
                      (js "prompt", JStr prompt);
                      (js "stream", JBool true)] |}.

(** [key || process.env.GOOGLE_API_KEY]. *)
Definition gemini_key (w : world) (req : request) : option jsstring :=
  match key req with
  | Some k => if nonempty k then Some k else env w (js "GOOGLE_API_KEY")
  | None => env w (js "GOOGLE_API_KEY")
  end.

Definition gemini_call (req : request) (geminiKey prompt : jsstring) : call :=
  {| endpoint :=
       js "https://generativelanguage.googleapis.com/v1beta/models/"
       ++ opt_or (model req) (js "gemini-2.5-flash-lite")
       ++ js ":generateContent?key=" ++ geminiKey;
     call_headers := content_json;
     payload :=
       JObj [(js "contents",
              JArr [JObj [(js "parts",
                           JArr [JObj [(js "text", JStr prompt)]])]])] |}.

(** [typeof p.text === "string" ? p.text : ""]; reading a property of
    [null] throws ([None]). *)
Definition part_text (p : json) : option jsstring :=
  match p with
  | JNull => None
  | _ => match get_field (js "text") p with
         | Some (JStr s) => Some s
         | _ => Some []
         end
  end.

Fixpoint map_parts (l : list json) : option (list jsstring) :=
  match l with
  | [] => Some []
  | p :: r => match part_text p, map_parts r with
              | Some s, Some ss => Some (s :: ss)
              | _, _ => None
              end
  end.

(** Lines 152 to 155, the body of the [try]: the value of the constant
    [text] declared inside it, or [None] when the block throws (the
    body is not JSON, [parts] has no [map], or an element of it is
    [null]). *)
Definition gemini_extract (textBody : jsstring) : option jsstring :=
  match JSON_parse textBody with
  | None => None
  | Some data =>
      let parts :=
        match opt_field (js "parts")
                (opt_field (js "content")
                   (opt_first (opt_field (js "candidates") (Some data)))) with
        | None | Some JNull => JArr []
        | Some v => v
        end in
      match parts with
      | JArr l => option_map (@List.concat N) (map_parts l)
      | _ => None
      end
  end.

(** Lines 150 to 158: the variable [text] after the [try] statement.
    The constant of the same name inside the block hides it there, so
    it is assigned only by the [catch] clause. *)
Definition gemini_text (textBody : jsstring) : jsstring :=
  match gemini_extract textBody with
  | Some _ => []
  | None => textBody
  end.

Definition gemini_delta (textBody : jsstring) : jsstring :=
  js "[gemini ok]" ++ nl ++ str_or (gemini_text textBody) (js "[empty text]").

(** Lines 142 to 162. A failed call is passed on with its status and its
    text; a successful one is answered with one record. *)
Definition gemini_response (r : reply) : response :=
  let textBody := reply_text r in
  if negb (ok r) then
    {| status := reply_status r; headers := content_text; body := [textBody] |}
  else
    {| status := 200; headers := content_text;
       body := [delta_line (JStr (gemini_delta textBody))] |}.

Definition ollama_response (r : reply) : response :=
  {| status := 200; headers := content_chunked;
     body := ollama_pump (chunks r) |}.

Definition POST (w : world) (req : request) : run :=
  let (fetched, rawHtml) := resolve_input w req in
  if negb (nonempty rawHtml) then
    {| events := fetched;
       result := Some (error_response (js "No URL/HTML provided.")) |}
  else
    let signals := runRules (load w rawHtml) in
    let prompt := buildPrompt rawHtml signals in
    if str_eqb (provider req) (js "ollama") then
      let c := ollama_call req prompt in
      {| events := fetched ++ [ModelFetch c];
         result := option_map ollama_response (upstream w c) |}
    else if str_eqb (provider req) (js "gemini") then
      match gemini_key w req with
      | Some k =>
          if nonempty k then
            let c := gemini_call req k prompt in
            {| events := fetched ++ [ModelFetch c];
               result := option_map gemini_response (upstream w c) |}
          else
            {| events := fetched;
               result := Some (error_response (js "Missing Google API key.")) |}
      | None =>
          {| events := fetched;
             result := Some (error_response (js "Missing Google API key.")) |}
      end
    else
      {| events := fetched;
         result := Some (error_response (js "Unknown provider")) |}.

End Part000.

(* ================================================================== *)
(** * The handler of [src/app/api/analyze/route.ts] *)
(* ================================================================== *)

Module Route.

Definition sel_buttons : selector :=
  [[tag "button"]; [tag "a"; attr_eq "role" "button"]].

Definition runRules (d : document) : signals :=
  {| title := trim (text (first (select sel_title d)));
     hasViewport := negb (Nat.eqb (List.length (select sel_viewport d)) 0);
     buttons := List.length (select sel_buttons d);
     primaryCtaGuess := trim (text (first (select sel_cta d)));
     forms := List.length (select sel_form d);
     inputs := List.length (select sel_inputs d);
     hasInlineValidationHint :=
       negb (Nat.eqb (List.length (select sel_validation d)) 0);
     hasProgress := negb (Nat.eqb (List.length (select sel_progress d)) 0);
     labels := List.length (select sel_label d)
  |}.

(** The code unit between [5] and [10] is an en dash. *)
Definition buildPrompt (html : jsstring) (s : signals) : jsstring :=
  js "You are a UX auditor." ++ nl ++
  nl ++
  js "Analyse the provided page using the extracted signals and the raw HTML." ++ nl ++
  js "Return 5" ++ [8211%N] ++
  js "10 actionable usability improvements in **Markdown**, grouped by **High**, **Medium**, **Low** priority." ++ nl ++
  js "For each item include: **Issue**, **Impact**, **Recommendation**. Use British English. Be concise." ++ nl ++
  nl ++
  js "### Extracted signals" ++ nl ++
  js "- title: " ++ str_or (title s) (js "(none)") ++ nl ++
  js "- hasViewport: " ++ of_bool (hasViewport s) ++ nl ++
  js "- forms: " ++ of_nat (forms s) ++ js ", inputs: " ++ of_nat (inputs s)
    ++ js ", labels: " ++ of_nat (labels s) ++ nl ++
  js "- buttons: " ++ of_nat (buttons s) ++ jq ", primaryCtaGuess: '"
    ++ str_or (primaryCtaGuess s) (js "(none)") ++ jq "'" ++ nl ++
  js "- hasInlineValidationHint: " ++ of_bool (hasInlineValidationHint s) ++ nl ++
  js "- hasProgress: " ++ of_bool (hasProgress s) ++ nl ++
  nl ++
  js "Do not wrap the whole response in code fences." ++ nl ++
  nl ++
  js "### Raw HTML (truncated if too long)" ++ nl ++
  slice0 4000 html ++ nl.

(** Lines 58 to 65: a URL that starts with [http] is fetched whether or
    not inline markup was given, and what it returns replaces the
    inline markup. *)
Definition resolve_input (w : world) (req : request)
  : list event * jsstring :=
  let rawHtml := opt_or (html req) [] in
  match url req with
  | Some u =>
      if nonempty u && startsWith (js "http") u then
        match page w u with
        | Some t => ([PageFetch u], t)
        | None => ([PageFetch u], rawHtml)
        end
      else ([], rawHtml)
  | None => ([], rawHtml)
  end.

(** A template literal renders an absent variable as [undefined]. *)
Definition env_text (w : world) (name : string) : jsstring :=
  match env w (js name) with
  | Some v => v
  | None => js "undefined"
  end.

Definition ollama_call (prompt : jsstring) : call :=
  {| endpoint := js "http://localhost:11434/api/generate";
     call_headers := content_json;
     payload := JObj [(js "model", JStr (js "deepseek-r1:14b"));
                      (js "prompt", JStr prompt);
                      (js "stream", JBool true)] |}.

Definition openai_call (w : world) (prompt : jsstring) : call :=
  {| endpoint := js "https://api.openai.com/v1/chat/completions";
     call_headers :=
       [(js "Content-Type", js "application/json");
        (js "Authorization", js "Bearer " ++ env_text w "OPENAI_API_KEY")];
     payload :=
       JObj [(js "model", JStr (js "gpt-4o-mini"));
             (js "messages",
              JArr [JObj [(js "role", JStr (js "user"));
                          (js "content", JStr prompt)]]);
             (js "stream", JBool true)] |}.

Definition gemini_call (w : world) (prompt : jsstring) : call :=
  {| endpoint :=
       js "https://generativelanguage.googleapis.com/v1beta/models/gemini-1.5-flash-latest:streamGenerateContent?key="
       ++ env_text w "GOOGLE_API_KEY";
     call_headers := content_json;
     payload :=
       JObj [(js "contents",
              JArr [JObj [(js "parts",
                           JArr [JObj [(js "text", JStr prompt)]])]])] |}.

(** ** The frame loop (chat completions API), lines 137 to 157 *)

(** The value written for one event, if any. *)
Definition openai_event (evt : jsstring) : list json :=
  if negb (startsWith (js "data:") evt) then []
  else
    let json := trim (skipn 5 evt) in
    if str_eqb json (js "[DONE]") then []
    else
      match JSON_parse json with
      | None => []
      | Some JNull => []
      | Some obj =>
          write_if_truthy
            (opt_field (js "content")
               (opt_field (js "delta")
                  (opt_first (get_field (js "choices") obj))))
      end.

(** The loop with its buffer: each read is appended to the buffer, the
    buffer is split at blank lines, the last piece is kept for the next
    round and the others are handled in order. *)
Fixpoint openai_loop (buffer : jsstring) (cs : list jsstring) : list json :=
  match cs with
  | [] => []
  | c :: rest =>
      let events := split_blank (buffer ++ c) in
      let (events', last) := pop_last events in
      flat_map openai_event events' ++ openai_loop (opt_or last []) rest
  end.

Definition openai_deltas (cs : list jsstring) : list json :=
  openai_loop [] cs.

(** ** The line loop of the gemini branch, lines 180 to 195 *)

Definition gemini_line (line : jsstring) : list json :=
  match JSON_parse line with
  | None => []
  | Some JNull => []
  | Some obj =>
      write_if_truthy
        (opt_field (js "text")
           (opt_first
              (opt_field (js "parts")
                 (opt_field (js "content")
                    (opt_first (get_field (js "candidates") obj))))))
  end.

Definition gemini_deltas (cs : list jsstring) : list json :=
  flat_map
    (fun c => flat_map gemini_line (filter_nonempty (split_lines c))) cs.

Definition stream_response (ds : list json) : response :=
  {| status := 200; headers := content_chunked; body := map delta_line ds |}.

Definition POST (w : world) (req : request) : run :=
  let (fetched, rawHtml) := resolve_input w req in
  if negb (nonempty rawHtml) then
    {| events := fetched;
       result := Some (error_response (js "No URL/HTML provided.")) |}
  else
    let signals := runRules (load w rawHtml) in
    let prompt := buildPrompt rawHtml signals in
    if str_eqb (provider req) (js "ollama") then
      let c := ollama_call prompt in
      {| events := fetched ++ [ModelFetch c];
         result := option_map
                     (fun r => stream_response (ollama_deltas (chunks r)))
                     (upstream w c) |}
    else if str_eqb (provider req) (js "openai") then
      let c := openai_call w prompt in
      {| events := fetched ++ [ModelFetch c];
         result := option_map
                     (fun r => stream_response (openai_deltas (chunks r)))
                     (upstream w c) |}
    else if str_eqb (provider req) (js "gemini") then
      let c := gemini_call w prompt in
      {| events := fetched ++ [ModelFetch c];
         result := option_map
                     (fun r => stream_response (gemini_deltas (chunks r)))
                     (upstream w c) |}
    else
      {| events := fetched;
         result := Some (error_response (js "Unknown provider")) |}.

End Route.

(* ================================================================== *)
(** * The properties, in the words of the specification *)
(* ================================================================== *)

(** Elements are told apart by their position in document order: two
    elements may look the same and still be distinct. *)
Fixpoint positions_from (k : nat) (p : node -> bool) (l : list node)
  : list nat :=
  match l with
  | [] => []
  | e :: r => if p e then k :: positions_from (S k) p r
              else positions_from (S k) p r
  end.

Definition positions (p : node -> bool) (d : document) : list nat :=
  positions_from 0 p (all_elements d).

(** The distinct elements that meet at least one of several criteria. *)
Definition distinct_matches (crit : list (node -> bool)) (d : document)
  : list nat :=
  nodup Nat.eq_dec (flat_map (fun p => positions p d) crit).

Definition name_is (n : string) (e : node) : bool :=
  match e with
  | NElem name _ _ => str_eqb name (js n)
  | _ => false
  end.

Definition attribute (a : string) (e : node) : option jsstring :=
  match e with
  | NElem _ attrs _ => lookup (js a) attrs
  | _ => None
  end.

(** The four button criteria. *)
Definition is_button (e : node) : bool := name_is "button" e.

Definition is_role_button_anchor (e : node) : bool :=
  name_is "a" e &&
  match attribute "role" e with
  | Some v => str_eqb v (js "button")
  | None => false
  end.

Definition has_btn_class (e : node) : bool :=
  match attribute "class" e with
  | Some v => existsb (str_eqb (js "btn")) (words v)
  | None => false
  end.

Definition testid_has_button (e : node) : bool :=
  match attribute "data-testid" e with
  | Some v => includes (js "button") v
  | None => false
  end.

Definition button_criteria : list (node -> bool) :=
  [is_button; is_role_button_anchor; has_btn_class; testid_has_button].

(** The call-to-action candidates, one set per selector of the list. *)
Definition cta_candidates (d : document) : list nat :=
  distinct_matches (map compound_matches sel_cta) d.

(** The text the specification asks of the one-shot provider: the [text]
    fields of the first candidate's parts, or the raw body when that
    fails or is empty. *)
Definition spec_gemini_delta (textBody : jsstring) : jsstring :=
  match Part000.gemini_extract textBody with
  | Some t => if nonempty t then t else textBody
  | None => textBody
  end.

(** A request reached the content-generation provider and the provider
    answered [r] with a success status. *)
Definition gemini_succeeded (w : world) (req : request) (r : reply) : Prop :=
  provider req = js "gemini" /\
  exists c, In (ModelFetch c) (events (Part000.POST w req)) /\
            upstream w c = Some r /\ ok r = true.

Definition no_newline (s : jsstring) : Prop := Forall (fun c => c <> 10%N) s.

(** The text of an upstream body made of the given frames, each followed
    by the separator. *)
Definition framed (sep : jsstring) (frames : list jsstring) : jsstring :=
  List.concat (map (fun f => f ++ sep) frames).

(** A frame of the local generate API that carries the fragment [v]. *)
Definition ollama_frame (l : jsstring) (v : json) : Prop :=
  no_newline l /\
  exists obj, JSON_parse l = Some obj /\
              get_field (js "response") obj = Some v /\
              truthy (Some v) = true.


(** A frame of the chat completions API: no blank line inside it and no
    line feed at its end. *)
Definition sse_frame (f : jsstring) : Prop :=
  includes (nl ++ nl) f = false /\ last f 0%N <> 10%N.

Definition openai_content (obj : json) : jsval :=
  opt_field (js "content")
    (opt_field (js "delta") (opt_first (get_field (js "choices") obj))).

Definition openai_frame (f : jsstring) (v : json) : Prop :=
  sse_frame f /\ startsWith (js "data:") f = true /\
  exists obj, JSON_parse (trim (skipn 5 f)) = Some obj /\
              openai_content obj = Some v /\ truthy (Some v) = true.


(** ** Worked inputs *)

Definition html_shop : jsstring :=
  js "<html><title>Shop</title><button type=submit>Buy</button></html>".

(** The tree an HTML parser builds for [html_shop]: the [head] and [body]
    elements are implied. *)
Definition dom_shop : document :=
  [NElem (js "html") []
     [NElem (js "head") [] [NElem (js "title") [] [NText (js "Shop")]];
      NElem (js "body") []
        [NElem (js "button") [(js "type", js "submit")] [NText (js "Buy")]]]].

Definition shop_signals : signals :=
  {| title := js "Shop"; hasViewport := false; forms := 0; inputs := 0;
     labels := 0; buttons := 1; primaryCtaGuess := js "Buy";
     hasInlineValidationHint := false; hasProgress := false |}.

(** An anchor of class [button] ahead of a submit button. *)
Definition dom_cta : document :=
  [NElem (js "body") []
     [NElem (js "a") [(js "class", js "button")] [NText (js " Later CTA ")];
      NElem (js "button") [(js "type", js "submit")] [NText (js "Go")]]].

(** One element that meets three of the button criteria, and one that
    has the class [btn] only. *)
Definition dom_buttons : document :=
  [NElem (js "body") []
     [NElem (js "button")
        [(js "class", js "big btn"); (js "data-testid", js "buy-button")]
        [NText (js "Buy")];
      NElem (js "div") [(js "class", js "btn")] [NText (js "More")]]].

Definition world_of (pg : option jsstring) (up : option reply)
           (d : document) : world :=
  {| page := fun _ => pg; upstream := fun _ => up;
     env := fun _ => None; load := fun _ => d |}.

Definition request_of (u h : option jsstring) (p : string)
           (k : option jsstring) : request :=
  {| url := u; html := h; provider := js p; key := k; model := None |}.

(** ** Replies, requests and frames used in the worked cases *)

Definition reply_hi : reply :=
  {| reply_status := 200;
     chunks := [jq "{'candidates':[{'content':{'parts':[{'text':'Hi'}]}}]}"] |}.

Definition reply_plain : reply :=
  {| reply_status := 200; chunks := [js "upstream says hello"] |}.

Definition reply_404 : reply :=
  {| reply_status := 404; chunks := [jq "{'error':'model not found'}"; nl] |}.

Definition reply_split : reply :=
  {| reply_status := 200; chunks := [jq "{'response':'Hel"; jq "lo'}" ++ nl] |}.

Definition reply_whole : reply :=
  {| reply_status := 200; chunks := [jq "{'response':'Hello'}" ++ nl] |}.

Definition req_gemini : request :=
  request_of None (Some html_shop) "gemini" (Some (js "K")).

Definition req_ollama : request :=
  request_of None (Some html_shop) "ollama" None.

Definition req_openai : request :=
  request_of None (Some html_shop) "openai" None.

Definition req_both : request :=
  request_of (Some (js "http://a.test")) (Some html_shop) "ollama" None.

Definition req_only_url : request :=
  request_of (Some (js "http://a.test")) None "ollama" None.

Definition world_shop : world := world_of None None dom_shop.

Definition world_fetched : world :=
  world_of (Some (js "<p>fetched</p>")) None dom_shop.

Definition line_hel : jsstring := jq "{'response':'Hel'}".

Definition line_lo : jsstring := jq "{'response':'lo'}".


Definition sse_hel : jsstring := jq "data: {'choices':[{'delta':{'content':'Hel'}}]}".

Definition sse_lo : jsstring := jq "data: {'choices':[{'delta':{'content':'lo'}}]}".


Definition sse_chunks : list jsstring :=
  [jq "data: {'choices':[{'delta':{'con";
   jq "tent':'Hel'}}]}" ++ nl;
   nl ++ jq "data: {'choices':[{'del";
   jq "ta'" ++ nl ++ nl ++ sse_lo ++ nl ++ nl].

(** No key in the request and none in the environment. *)
Definition no_key (w : world) (req : request) : Prop :=
  (key req = None \/ key req = Some []) /\
  (env w (js "GOOGLE_API_KEY") = None \/ env w (js "GOOGLE_API_KEY") = Some []).

(* ================================================================== *)
(** * The page that comes with [route.ts] *)
(* ================================================================== *)

(** The component that follows the handler in
    [src/app/api/analyze/route.ts], lines 204 to 362. *)

(** String conversion, as [prev + obj.delta] performs it on a value that
    is not a string: an array joins its items with commas, [null] items
    being empty, and an object is [[object Object]]. [None] where this
    development gives no answer: a number (its text is that of a
    double) and an object with a member named [toString] (the conversion
    throws). *)
Fixpoint all_some (A : Type) (l : list (option A)) : option (list A) :=
  match l with
  | [] => Some []
  | Some x :: r => option_map (cons x) (all_some r)
  | None :: _ => None
  end.

Fixpoint to_display (v : json) : option jsstring :=
  match v with
  | JNull => Some (js "null")
  | JBool b => Some (of_bool b)
  | JNum _ => None
  | JStr s => Some s
  | JArr l =>
      option_map (join (js ","))
        (all_some
           (map (fun x => match x with JNull => Some [] | _ => to_display x end)
              l))
  | JObj ms =>
      match lookup (js "toString") (define_all ms) with
      | Some _ => None
      | None => Some (js "[object Object]")
      end
  end.

(** The texts that a handler gives for the items of a list, one after
    the other, joined; [None] as soon as one of them is [None]. *)
Fixpoint gather (f : jsstring -> option jsstring) (l : list jsstring)
  : option jsstring :=
  match l with
  | [] => Some []
  | x :: r =>
      match f x, gather f r with
      | Some a, Some b => Some (a ++ b)
      | _, _ => None
      end
  end.

(** The body of a request as [req.json()] hands it to the handlers,
    with the types they declare: a field that is absent or not a string
    is [undefined]. *)
Definition string_field (name : string) (v : json) : option jsstring :=
  match get_field (js name) v with
  | Some (JStr s) => Some s
  | _ => None
  end.

Definition decode_request (v : json) : request :=
  {| url := string_field "url" v;
     html := string_field "html" v;
     provider := match string_field "provider" v with
                 | Some p => p
                 | None => []
                 end;
     key := string_field "key" v;
     model := string_field "model" v |}.

Module RoutePage.

(** The state of the component. *)
Record state : Type := {
  url : jsstring;
  htmlInput : jsstring;
  provider : jsstring;
  loading : bool;
  result : jsstring
}.

(** Line 230: [JSON.stringify({ url, html: htmlInput, provider })]. *)
Definition request_json (st : state) : json :=
  JObj [(js "url", JStr (url st));
        (js "html", JStr (htmlInput st));
        (js "provider", JStr (provider st))].

Definition request_body (st : state) : jsstring :=
  JSON_stringify (request_json st).

(** Lines 242 to 247: what one line adds to the result. A line that does
    not parse, or parses to [null], throws inside the [try] and is
    ignored. *)
Definition read_line (line : jsstring) : option jsstring :=
  match JSON_parse line with
  | None => Some []
  | Some JNull => Some []
  | Some obj =>
      match get_field (js "delta") obj with
      | Some v => if truthy (Some v) then to_display v else Some []
      | None => Some []
      end
  end.

(** Lines 239 to 248: one read. *)
Definition read_chunk (chunk : jsstring) : option jsstring :=
  gather read_line (filter_nonempty (split_lines chunk)).

(** Lines 236 to 249: the loop, from the empty result. *)
Definition read_all (reads : list jsstring) : option jsstring :=
  gather read_chunk reads.

(** Lines 222 to 251. [api] gives, for the body of the request, the
    reads that the browser makes of the body of the response. *)
Definition handleAnalyze (api : jsstring -> list jsstring) (st : state)
  : option state :=
  if negb (nonempty (url st)) && negb (nonempty (htmlInput st)) then Some st
  else
    match read_all (api (request_body st)) with
    | Some t =>
        Some {| url := url st;
                htmlInput := htmlInput st;
                provider := provider st;
                loading := false;
                result := t |}
    | None => None
    end.

End RoutePage.

(** ** The page in front of the route *)

(** The request that the route decodes from the body the page sends. *)
Definition route_page_request (st : RoutePage.state) : request :=
  {| url := Some (RoutePage.url st);
     html := Some (RoutePage.htmlInput st);
     provider := RoutePage.provider st;
     key := None;
     model := None |}.

(** The route behind the page: the request body is decoded and the
    handler of [route.ts] runs; [None] when the body is not JSON or the
    handler rejects. *)
Definition route_response (w : world) (body_text : jsstring)
  : option response :=
  match JSON_parse body_text with
  | Some v => result (Route.POST w (decode_request v))
  | None => None
  end.

(** The reads of a body made of whole written chunks: the writes of the
    handler arrive grouped in some way, none of them cut. *)
Definition regrouped (writes : list jsstring) (reads : list jsstring) : Prop :=
  exists groups, List.concat groups = writes /\
                 reads = map (@List.concat N) groups.

(** ** Runs that reach a model provider *)

(** The run of part_000 called a model provider, which answered [r]. *)
Definition answered (w : world) (req : request) (r : reply) : Prop :=
  exists c, In (ModelFetch c) (events (Part000.POST w req)) /\
            upstream w c = Some r.

(** Two worlds that differ at most in the process environment. *)
Definition same_but_env (w w' : world) : Prop :=
  (forall u, page w u = page w' u) /\
  (forall c, upstream w c = upstream w' c) /\
  (forall h, load w h = load w' h).

(** ** Trimmed text *)

Definition all_space (s : jsstring) : Prop :=
  Forall (fun c => is_space c = true) s.

(** [t] is [raw] without the white space at its two ends. *)
Definition trimmed_of (raw t : jsstring) : Prop :=
  (exists a b, raw = a ++ t ++ b /\ all_space a /\ all_space b) /\
  (forall c r, t = c :: r -> is_space c = false) /\
  (forall r c, t = r ++ [c] -> is_space c = false).

(** ** Further worked inputs *)

(** A transport that hands every write of the route to the page as one
    read. *)
Definition direct_api (w : world) (sent : jsstring) : list jsstring :=
  match route_response w sent with
  | Some resp => body resp
  | None => []
  end.

Definition route_page_state (h : jsstring) (p : string) : RoutePage.state :=
  {| RoutePage.url := []; RoutePage.htmlInput := h; RoutePage.provider := js p;
     RoutePage.loading := false; RoutePage.result := js "earlier answer" |}.

Definition route_page_bare_url : RoutePage.state :=
  {| RoutePage.url := js "example.com"; RoutePage.htmlInput := [];
     RoutePage.provider := js "ollama"; RoutePage.loading := false;
     RoutePage.result := js "earlier answer" |}.

Definition reply_lines : reply :=
  {| reply_status := 200;
     chunks := map (framed nl) [[line_hel]; [line_lo]] |}.

Definition reply_sse : reply :=
  {| reply_status := 200;
     chunks := [jq "data: {'choices':[{'delta':{'con";
                jq "tent':'Hel'}}]}" ++ nl;
                nl ++ sse_lo ++ nl ++ nl ++ js "data: [DO";
                js "NE]" ++ nl ++ nl] |}.

Definition world_lines : world := world_of None (Some reply_lines) dom_shop.

Definition world_sse : world := world_of None (Some reply_sse) dom_shop.

Definition world_with_key (up : option reply) : world :=
  {| page := fun _ => None; upstream := fun _ => up;
     env := fun _ => Some (js "E"); load := fun _ => dom_shop |}.

Definition dom_plain : document :=
  [NElem (js "p") [] [NText (js "nothing to press")]].


(* ================================================================== *)
(** * The page of [src/app/page.tsx] *)
(* ================================================================== *)

(** What [fetch] and the reads of the body give the page: the fetch
    rejects (with the text of [err?.message || String(err)]), or a
    response arrives with its status line and its body. The body is
    absent, or is a sequence of reads, after which the stream may break
    (again with the text of the error). *)
Record stream : Type := {
  reads : list jsstring;
  broken : option jsstring
}.

Record received : Type := {
  got_status : N;
  got_statusText : jsstring;
  got_body : option stream
}.

Inductive fetched : Type :=
| Rejected (message : jsstring)
| Arrived (r : received).

(** [res.ok], and [await res.text()]: the whole body, the empty string
    for an absent body, or the error of a broken stream. *)
Definition got_ok (r : received) : bool :=
  ((200 <=? got_status r) && (got_status r <=? 299))%N.

Definition got_text (r : received) : jsstring + jsstring :=
  match got_body r with
  | None => inl []
  | Some b => match broken b with
              | None => inl (List.concat (reads b))
              | Some e => inr e
              end
  end.

Module Page.

(** The state of the component. [errorText] holds the value it was set
    to, which line 60 does not always make a string. *)
Record state : Type := {
  url : jsstring;
  htmlInput : jsstring;
  provider : jsstring;
  model : jsstring;
  apiKey : jsstring;
  loading : bool;
  result : jsstring;
  statusText : jsstring;
  errorText : json
}.

(** Lines 25 to 28: the effect that follows a change of provider. *)
Definition sync_model (st : state) : state :=
  let m :=
    if str_eqb (provider st) (js "gemini") then js "gemini-2.5-flash-lite"
    else if str_eqb (provider st) (js "ollama") then js "deepseek-r1:14b"
    else model st in
  {| url := url st; htmlInput := htmlInput st; provider := provider st;
     model := m; apiKey := apiKey st; loading := loading st;
     result := result st; statusText := statusText st;
     errorText := errorText st |}.

(** ** [stripCodeFences], lines 30 to 32 *)

(** A global replace by the empty string reads the text from left to
    right: [FOne] and [FTwo] hold back one and two backticks that may
    start a fence, and [FWord] is inside the tag that follows a fence
    ([[a-zA-Z0-9_-]*], then at most one white-space unit). With [tag]
    off, the pattern is the bare fence of the second replace. *)
Inductive fence_state : Type := FNone | FOne | FTwo | FWord.

Definition is_tag_unit (c : N) : bool :=
  ((97 <=? c) && (c <=? 122) || (65 <=? c) && (c <=? 90)
   || (48 <=? c) && (c <=? 57) || (c =? 95) || (c =? 45))%N.

Definition held (st : fence_state) : jsstring :=
  match st with
  | FOne => [96%N]
  | FTwo => [96%N; 96%N]
  | _ => []
  end.

Fixpoint strip (tag : bool) (st : fence_state) (s : jsstring) : jsstring :=
  match s with
  | [] => held st
  | c :: r =>
      if N.eqb c 96 then
        match st with
        | FNone | FWord => strip tag FOne r
        | FOne => strip tag FTwo r
        | FTwo => strip tag (if tag then FWord else FNone) r
        end
      else
        match st with
        | FWord =>
            if is_tag_unit c then strip tag FWord r
            else if is_space c then strip tag FNone r
            else c :: strip tag FNone r
        | _ => held st ++ c :: strip tag FNone r
        end
  end.

(** Three backticks. *)
Definition fence : jsstring := [96; 96; 96]%N.

Definition stripCodeFences (s : jsstring) : jsstring :=
  strip false FNone (strip true FNone s).

(** Line 48: the body of the request. *)
Definition request_json (st : state) : json :=
  JObj [(js "url", JStr (url st));
        (js "html", JStr (htmlInput st));
        (js "provider", JStr (provider st));
        (js "key", JStr (apiKey st));
        (js "model", JStr (model st))].

Definition request_body (st : state) : jsstring :=
  JSON_stringify (request_json st).

(** Lines 57 to 61: the message for a response that is not OK. *)
Definition error_message (text : jsstring) : json :=
  match JSON_parse text with
  | None => JStr text
  | Some JNull => JStr text
  | Some j =>
      match get_field (js "error") j with
      | Some e => if truthy (Some e) then e else JStr (JSON_stringify j)
      | None => JStr (JSON_stringify j)
      end
  end.

(** Lines 72 to 81: the result when the response has no readable
    stream. A [delta] that is not a string has no [replace], so the
    call throws and the [catch] clause applies. *)
Definition fallback_result (text : jsstring) : jsstring :=
  let plain := str_or text (js "[empty response body]") in
  match JSON_parse text with
  | None => plain
  | Some maybe =>
      match opt_field (js "delta") (Some maybe) with
      | Some (JStr s) => if nonempty s then stripCodeFences s else plain
      | _ => plain
      end
  end.

(** Lines 95 to 105: what one line adds to the result. A line that does
    not parse, a [null], and a [delta] that is not a string (it has no
    [replace]) all throw inside the [try] and add nothing. *)
Definition read_line (line : jsstring) : jsstring :=
  match JSON_parse line with
  | None => []
  | Some JNull => []
  | Some obj =>
      match get_field (js "delta") obj with
      | Some (JStr s) => stripCodeFences s
      | _ => []
      end
  end.

(** Lines 93 to 106: one read; lines 87 to 107: the loop. *)
Definition read_chunk (chunk : jsstring) : jsstring :=
  flat_map read_line (filter_nonempty (split_lines chunk)).

Definition read_all (rs : list jsstring) : jsstring :=
  flat_map read_chunk rs.

(** The states in which [handleAnalyze] leaves the component. *)
Definition started (st : state) : state :=
  {| url := url st; htmlInput := htmlInput st; provider := provider st;
     model := model st; apiKey := apiKey st; loading := false;
     result := []; statusText := []; errorText := JStr [] |}.

Definition with_status (s : jsstring) (st : state) : state :=
  {| url := url st; htmlInput := htmlInput st; provider := provider st;
     model := model st; apiKey := apiKey st; loading := loading st;
     result := result st; statusText := s; errorText := errorText st |}.

Definition with_result (t : jsstring) (st : state) : state :=
  {| url := url st; htmlInput := htmlInput st; provider := provider st;
     model := model st; apiKey := apiKey st; loading := loading st;
     result := t; statusText := statusText st; errorText := errorText st |}.

Definition with_error (e : json) (st : state) : state :=
  {| url := url st; htmlInput := htmlInput st; provider := provider st;
     model := model st; apiKey := apiKey st; loading := loading st;
     result := result st; statusText := statusText st; errorText := e |}.

(** Line 52. *)
Definition status_line (r : received) : jsstring :=
  js "HTTP " ++ of_nat (N.to_nat (got_status r)) ++ js " " ++ got_statusText r.

(** Lines 34 to 114, as the state once the function has returned (the
    [finally] clause has then run, so [loading] is off). [api] gives what
    the fetch of the request body brings. *)
Definition handleAnalyze (api : jsstring -> fetched) (st : state) : state :=
  if negb (nonempty (url st)) && negb (nonempty (htmlInput st)) then st
  else
    match api (request_body st) with
    | Rejected message => with_error (JStr message) (started st)
    | Arrived r =>
        let st1 := with_status (status_line r) (started st) in
        if negb (got_ok r) then
          match got_text r with
          | inl text => with_error (error_message text) st1
          | inr message => with_error (JStr message) st1
          end
        else
          match got_body r with
          | None =>
              match got_text r with
              | inl text => with_result (fallback_result text) st1
              | inr message => with_error (JStr message) st1
              end
          | Some b =>
              let st2 := with_result (read_all (reads b)) st1 in
              match broken b with
              | None => st2
              | Some message => with_error (JStr message) st2
              end
          end
    end.

End Page.

(** ** The page in front of the handler of part_000 *)

(** The request that the handler decodes from the body the page sends. *)
Definition page_request (st : Page.state) : request :=
  {| url := Some (Page.url st);
     html := Some (Page.htmlInput st);
     provider := Page.provider st;
     key := Some (Page.apiKey st);
     model := Some (Page.model st) |}.

(** The handler of part_000 behind the page: the request body is decoded
    and the handler runs; the response reaches the page with some reason
    phrase and with its writes regrouped into the reads of the stream. *)
Definition part000_serves (w : world) (sent : jsstring) (f : fetched) : Prop :=
  exists v resp phrase rs,
    JSON_parse sent = Some v /\
    result (Part000.POST w (decode_request v)) = Some resp /\
    regrouped (body resp) rs /\
    f = Arrived {| got_status := status resp;
                   got_statusText := phrase;
                   got_body := Some {| reads := rs; broken := None |} |}.

(** The page after [handleAnalyze] has shown the message of a response
    with status 400. *)
Definition page_error_400 (st : Page.state) (msg : string)
           (after : Page.state) : Prop :=
  exists phrase,
    after = Page.with_error (JStr (js msg))
              (Page.with_status (js "HTTP 400 " ++ phrase) (Page.started st)).

(** ** Worked cases *)

(** A transport that hands over each write as one read. *)
Definition part000_direct (w : world) (sent : jsstring) : fetched :=
  match JSON_parse sent with
  | Some v =>
      match result (Part000.POST w (decode_request v)) with
      | Some resp =>
          Arrived {| got_status := status resp;
                     got_statusText := [];
                     got_body := Some {| reads := body resp; broken := None |} |}
      | None => Rejected (js "fetch failed")
      end
  | None => Rejected (js "fetch failed")
  end.

Definition page_state (u h : jsstring) (p : string) (k : jsstring) : Page.state :=
  {| Page.url := u; Page.htmlInput := h; Page.provider := js p;
     Page.model := js "m1"; Page.apiKey := k; Page.loading := false;
     Page.result := js "earlier answer"; Page.statusText := js "HTTP 200 OK";
     Page.errorText := JStr (js "earlier error") |}.

Definition reply_fenced : reply :=
  {| reply_status := 200;
     chunks := map (framed nl)
                 [[jq "{'response':'```js'}"]; [jq "{'response':'x = 1'}"];
                  [jq "{'response':'```'}"]] |}.


(* ================================================================== *)
(** * Lemmas *)
(* ================================================================== *)

Unset Implicit Arguments.
Arguments js : simpl never.

(** ** Strings *)

Lemma str_eqb_eq (a b : jsstring) : str_eqb a b = true <-> a = b.
Proof.
  revert b; induction a as [|x a IH]; intros [|y b]; simpl; split;
    try congruence; try reflexivity.
  - intros H. apply andb_true_iff in H as [Hx Hr].
    apply N.eqb_eq in Hx. apply IH in Hr. congruence.
  - intros H. injection H as -> ->. rewrite N.eqb_refl. simpl.
    apply IH. reflexivity.
Qed.

Lemma str_eqb_refl (a : jsstring) : str_eqb a a = true.
Proof. apply str_eqb_eq. reflexivity. Qed.

Lemma str_eqb_sym (a b : jsstring) : str_eqb a b = str_eqb b a.
Proof.
  revert b; induction a as [|x a IH]; intros [|y b]; simpl; try reflexivity.
  rewrite N.eqb_sym, IH. reflexivity.
Qed.

Lemma nonempty_false (s : jsstring) : nonempty s = false <-> s = [].
Proof. destruct s; simpl; split; congruence. Qed.

Lemma nonempty_true (s : jsstring) : nonempty s = true <-> s <> [].
Proof. destruct s; simpl; split; congruence. Qed.

Lemma startsWith_app (p s : jsstring) : startsWith p (p ++ s) = true.
Proof.
  induction p as [|x p IH]; simpl; [reflexivity|].
  rewrite N.eqb_refl. exact IH.
Qed.


(** ** Selections and positions *)

Section Positions.
Variable p : node -> bool.

Lemma In_positions_from (l : list node) :
  forall k i,
    In i (positions_from k p l) <->
    exists j e, i = k + j /\ nth_error l j = Some e /\ p e = true.
Proof.
  induction l as [|x l IH]; intros k i; simpl.
  - split; [intros [] | intros (j & e & _ & H & _); destruct j; discriminate].
  - destruct (p x) eqn:Hx; simpl; rewrite IH; split.
    + intros [<- | (j & e & -> & Hj & He)].
      * exists 0, x. repeat split; auto.
      * exists (S j), e. repeat split; auto; lia.
    + intros (j & e & -> & Hj & He). destruct j as [|j]; simpl in Hj.
      * left; lia.
      * right. exists j, e. repeat split; auto; lia.
    + intros (j & e & -> & Hj & He).
      exists (S j), e. repeat split; auto; lia.
    + intros (j & e & -> & Hj & He). destruct j as [|j]; simpl in Hj.
      * congruence.
      * exists j, e. repeat split; auto; lia.
Qed.

Lemma NoDup_positions_from (l : list node) :
  forall k, NoDup (positions_from k p l).
Proof.
  induction l as [|x l IH]; intros k; simpl; [constructor|].
  destruct (p x); [|apply IH].
  constructor; [|apply IH].
  rewrite In_positions_from. intros (j & e & Hk & _). lia.
Qed.

Lemma length_positions_from (l : list node) :
  forall k, List.length (positions_from k p l) = List.length (filter p l).
Proof.
  induction l as [|x l IH]; intros k; simpl; [reflexivity|].
  destruct (p x); simpl; rewrite IH; reflexivity.
Qed.

(** The first element kept by a filter is the one at the least
    position that passes the test. *)
Lemma first_filter_least (l : list node) :
  forall i e,
    nth_error l i = Some e -> p e = true ->
    (forall j e', j < i -> nth_error l j = Some e' -> p e' = false) ->
    firstn 1 (filter p l) = [e].
Proof.
  induction l as [|x l IH]; intros i e Hi He Hmin.
  - destruct i; discriminate.
  - destruct i as [|i]; simpl in Hi.
    + injection Hi as ->. simpl. rewrite He. reflexivity.
    + simpl. rewrite (Hmin 0 x) by (simpl; auto; lia).
      apply (IH i e Hi He). intros j e' Hj Hn.
      apply (Hmin (S j) e'); [lia | exact Hn].
Qed.
End Positions.

(** Counting the elements that meet one of several criteria counts
    distinct elements. *)
Lemma length_filter_union (crit : list (node -> bool)) (l : list node) :
  List.length (filter (fun e => existsb (fun c => c e) crit) l) =
  List.length (nodup Nat.eq_dec (flat_map (fun c => positions_from 0 c l) crit)).
Proof.
  rewrite <- (length_positions_from (fun e => existsb (fun c => c e) crit) l 0).
  apply Permutation_length, NoDup_Permutation.
  - apply NoDup_positions_from.
  - apply NoDup_nodup.
  - intros i. rewrite nodup_In, in_flat_map, In_positions_from. split.
    + intros (j & e & Hi & Hj & He). apply existsb_exists in He as (c & Hc & Hce).
      exists c. split; [exact Hc|]. apply In_positions_from. eauto.
    + intros (c & Hc & Hin). apply In_positions_from in Hin as (j & e & Hi & Hj & He).
      exists j, e. repeat split; auto. apply existsb_exists. eauto.
Qed.

Lemma buttons_criteria (e : node) :
  selector_matches Part000.sel_buttons e = existsb (fun c => c e) button_criteria.
Proof.
  destruct e as [t|t|name attrs cs]; [reflexivity|reflexivity|].
  unfold selector_matches, Part000.sel_buttons, button_criteria,
    compound_matches, is_button, is_role_button_anchor, has_btn_class,
    testid_has_button, name_is, attribute, tag, attr_eq, class_.
  cbn [existsb forallb simple_matches attr_matches].
  rewrite !andb_true_r, !orb_false_r.
  rewrite (str_eqb_sym (js "button") name), (str_eqb_sym (js "a") name).
  destruct (lookup (js "data-testid") attrs); reflexivity.
Qed.

Lemma route_buttons_criteria (e : node) :
  selector_matches Route.sel_buttons e =
  existsb (fun c => c e) [is_button; is_role_button_anchor].
Proof.
  destruct e as [t|t|name attrs cs]; [reflexivity|reflexivity|].
  unfold selector_matches, Route.sel_buttons,
    compound_matches, is_button, is_role_button_anchor, name_is, attribute,
    tag, attr_eq.
  cbn [existsb forallb simple_matches attr_matches].
  rewrite !andb_true_r, !orb_false_r.
  rewrite (str_eqb_sym (js "button") name), (str_eqb_sym (js "a") name).
  reflexivity.
Qed.

Lemma length_select (sel : selector) (crit : list (node -> bool)) (d : document) :
  (forall e, selector_matches sel e = existsb (fun c => c e) crit) ->
  List.length (select sel d) = List.length (distinct_matches crit d).
Proof.
  intros H. unfold select, distinct_matches, positions.
  rewrite (filter_ext _ _ H). apply length_filter_union.
Qed.

Lemma text_single (e : node) : text [e] = textContent e.
Proof. unfold text. simpl. apply app_nil_r. Qed.

Lemma cta_first (d : document) (i : nat) :
  In i (cta_candidates d) ->
  (forall j, In j (cta_candidates d) -> i <= j) ->
  exists e, nth_error (all_elements d) i = Some e /\
            first (select sel_cta d) = [e].
Proof.
  unfold cta_candidates, distinct_matches, positions.
  intros Hin Hmin.
  assert (Hchar : forall j,
             In j (nodup Nat.eq_dec
                     (flat_map (fun p => positions_from 0 p (all_elements d))
                        (map compound_matches sel_cta))) <->
             exists e, nth_error (all_elements d) j = Some e /\
                       selector_matches sel_cta e = true).
  { intros j. rewrite nodup_In, in_flat_map. split.
    - intros (p & Hp & Hj). apply in_map_iff in Hp as (c & <- & Hc).
      apply In_positions_from in Hj as (k & e & -> & Hk & He).
      exists e. split; [exact Hk|]. apply existsb_exists. eauto.
    - intros (e & Hj & He). apply existsb_exists in He as (c & Hc & Hce).
      exists (compound_matches c). split; [apply in_map; exact Hc|].
      apply In_positions_from. exists j, e. auto. }
  apply Hchar in Hin as (e & Hi & He).
  exists e. split; [exact Hi|].
  unfold first, select.
  apply first_filter_least with (i := i); [exact Hi | exact He |].
  intros j e' Hlt Hj.
  destruct (selector_matches sel_cta e') eqn:He'; [|reflexivity].
  assert (i <= j) by (apply Hmin, Hchar; eauto). lia.
Qed.

(** ** Splitting at blank lines *)

Lemma split_blank_ind (P : jsstring -> Prop) :
  P [] ->
  (forall c, P [c]) ->
  (forall c d r, is_nl c && is_nl d = true -> P r -> P (c :: d :: r)) ->
  (forall c d r, is_nl c && is_nl d = false -> P (d :: r) -> P (c :: d :: r)) ->
  forall s, P s.
Proof.
  intros H0 H1 Hsep Hgo s.
  assert (H : forall n s, List.length s <= n -> P s).
  { clear s. induction n as [|n IH]; intros s Hn.
    - destruct s; [exact H0 | simpl in Hn; lia].
    - destruct s as [|c [|d r]]; [exact H0 | apply H1 |].
      simpl in Hn. destruct (is_nl c && is_nl d) eqn:E.
      + apply Hsep; [exact E | apply IH; lia].
      + apply Hgo; [exact E | apply IH; simpl; lia]. }
  apply (H (List.length s)). lia.
Qed.

Lemma split_blank_sep (c d : N) (r : jsstring) :
  is_nl c && is_nl d = true ->
  split_blank (c :: d :: r) = [] :: split_blank r.
Proof. intros E. simpl. rewrite E. reflexivity. Qed.

Lemma split_blank_go (c d : N) (r : jsstring) :
  is_nl c && is_nl d = false ->
  split_blank (c :: d :: r) = cons_head c (split_blank (d :: r)).
Proof. intros E. cbn [split_blank]. rewrite E. reflexivity. Qed.

Lemma split_blank_nonempty (s : jsstring) : split_blank s <> [].
Proof.
  induction s as [| | c d r E IH | c d r E IH] using split_blank_ind.
  - discriminate.
  - discriminate.
  - rewrite (split_blank_sep c d r E). discriminate.
  - rewrite (split_blank_go c d r E). destruct (split_blank (d :: r)); discriminate.
Qed.

(** Joining the pieces with the separator gives the text back. *)
Lemma join_cons_head (sep : jsstring) (c : N) (l : list jsstring) :
  l <> [] -> join sep (cons_head c l) = c :: join sep l.
Proof. destruct l as [|h [|h' t]]; [congruence | reflexivity | reflexivity]. Qed.

Lemma join_split_blank (s : jsstring) : join (nl ++ nl) (split_blank s) = s.
Proof.
  induction s as [| | c d r E IH | c d r E IH] using split_blank_ind.
  - reflexivity.
  - reflexivity.
  - rewrite (split_blank_sep c d r E).
    apply andb_true_iff in E as [Ec Ed]. apply N.eqb_eq in Ec, Ed. subst.
    pose proof (split_blank_nonempty r) as Hne.
    destruct (split_blank r) as [|h t] eqn:Hs; [congruence|].
    change (join (nl ++ nl) ([] :: h :: t)) with (nl ++ nl ++ join (nl ++ nl) (h :: t)).
    rewrite IH. reflexivity.
  - rewrite (split_blank_go c d r E), join_cons_head by apply split_blank_nonempty.
    rewrite IH. reflexivity.
Qed.

Lemma split_blank_single (s h : jsstring) : split_blank s = [h] -> h = s.
Proof.
  intros H. rewrite <- (join_split_blank s), H. reflexivity.
Qed.

Lemma removelast_cons_head (c : N) (h : jsstring) (t : list jsstring) :
  t <> [] ->
  removelast (cons_head c (h :: t)) = cons_head c (removelast (h :: t)).
Proof. destruct t; [congruence | reflexivity]. Qed.

Lemma last_cons_head (c : N) (h : jsstring) (t : list jsstring) :
  t <> [] -> last (cons_head c (h :: t)) [] = last (h :: t) [].
Proof. destruct t; [congruence | reflexivity]. Qed.

(** Splitting a text that arrives in two parts: the pieces closed within
    the first part, then the split of its open last piece followed by
    the second part. *)
Lemma split_blank_app (a b : jsstring) :
  split_blank (a ++ b) =
  removelast (split_blank a) ++ split_blank (last (split_blank a) [] ++ b).
Proof.
  induction a as [| | c d r E IH | c d r E IH] using split_blank_ind.
  - reflexivity.
  - reflexivity.
  - change ((c :: d :: r) ++ b) with (c :: d :: (r ++ b)).
    rewrite !(split_blank_sep c d _ E), IH.
    pose proof (split_blank_nonempty r) as Hne.
    destruct (split_blank r) as [|h t]; [congruence|]. reflexivity.
  - change ((c :: d :: r) ++ b) with (c :: d :: (r ++ b)).
    rewrite !(split_blank_go c d _ E).
    change (d :: r ++ b) with ((d :: r) ++ b). rewrite IH.
    pose proof (split_blank_nonempty (d :: r)) as Hne.
    destruct (split_blank (d :: r)) as [|h t] eqn:Hs; [congruence|].
    destruct t as [|h' t'].
    + pose proof (split_blank_single _ _ Hs) as ->.
      cbn [removelast last cons_head app].
      rewrite (split_blank_go c d _ E). reflexivity.
    + rewrite removelast_cons_head, last_cons_head by discriminate.
      reflexivity.
Qed.

(** The last piece of a split holds no separator. *)
Lemma split_blank_last (s : jsstring) :
  split_blank (last (split_blank s) []) = [last (split_blank s) []].
Proof.
  induction s as [| | c d r E IH | c d r E IH] using split_blank_ind.
  - reflexivity.
  - reflexivity.
  - rewrite (split_blank_sep c d r E).
    pose proof (split_blank_nonempty r) as Hne.
    destruct (split_blank r) as [|h t]; [congruence|]. exact IH.
  - rewrite (split_blank_go c d r E).
    pose proof (split_blank_nonempty (d :: r)) as Hne.
    destruct (split_blank (d :: r)) as [|h t] eqn:Hs; [congruence|].
    destruct t as [|h' t'].
    + pose proof (split_blank_single _ _ Hs) as ->.
      cbn [last cons_head]. rewrite (split_blank_go c d r E), Hs. reflexivity.
    + rewrite last_cons_head by discriminate. exact IH.
Qed.

Lemma includes_cons_false (p : jsstring) (c : N) (s : jsstring) :
  includes p (c :: s) = false -> includes p s = false.
Proof.
  cbn [includes]. intros H. apply orb_false_iff in H as [_ H]. exact H.
Qed.

Lemma sse_frame_tail (c d : N) (r : jsstring) :
  sse_frame (c :: d :: r) -> sse_frame (d :: r).
Proof.
  intros [Hi Hl]. split; [exact (includes_cons_false _ _ _ Hi) | exact Hl].
Qed.

Lemma split_blank_frame (f : jsstring) :
  sse_frame f -> split_blank (f ++ nl ++ nl) = [f; []].
Proof.
  induction f as [| | c d r E IH | c d r E IH] using split_blank_ind;
    intros Hf.
  - reflexivity.
  - destruct Hf as [_ Hl]. simpl in Hl.
    change ([c] ++ nl ++ nl) with (c :: 10%N :: [10%N]).
    rewrite split_blank_go; [reflexivity|].
    unfold is_nl. apply N.eqb_neq in Hl. rewrite Hl. reflexivity.
  - destruct Hf as [Hi _]. exfalso.
    apply andb_true_iff in E as [Ec Ed]. apply N.eqb_eq in Ec, Ed. subst.
    discriminate Hi.
  - change ((c :: d :: r) ++ nl ++ nl) with (c :: d :: (r ++ nl ++ nl)).
    rewrite (split_blank_go c d _ E).
    change (d :: r ++ nl ++ nl) with ((d :: r) ++ nl ++ nl).
    rewrite (IH (sse_frame_tail _ _ _ Hf)). reflexivity.
Qed.

Lemma split_blank_framed (frames : list jsstring) :
  Forall sse_frame frames ->
  split_blank (framed (nl ++ nl) frames) = frames ++ [[]].
Proof.
  induction 1 as [|f fs Hf _ IH]; [reflexivity|].
  unfold framed in *. cbn [map List.concat].
  rewrite split_blank_app, (split_blank_frame f Hf).
  cbn [removelast last app]. rewrite IH. reflexivity.
Qed.

(** ** Splitting at line feeds *)

Lemma split_lines_line (l rest : jsstring) :
  no_newline l ->
  split_lines (l ++ nl ++ rest) = l :: split_lines rest.
Proof.
  induction 1 as [|c l Hc _ IH]; [reflexivity|].
  cbn [app split_lines]. unfold is_nl.
  apply N.eqb_neq in Hc. rewrite Hc, IH. reflexivity.
Qed.

Lemma split_lines_framed (ls : list jsstring) :
  Forall no_newline ls -> split_lines (framed nl ls) = ls ++ [[]].
Proof.
  induction 1 as [|l ls Hl _ IH]; [reflexivity|].
  unfold framed in *. cbn [map List.concat].
  rewrite <- app_assoc, (split_lines_line _ _ Hl), IH. reflexivity.
Qed.

Lemma flat_map_filter_nonempty (f : jsstring -> list json) (ls : list jsstring) :
  f [] = [] -> flat_map f (filter_nonempty ls) = flat_map f ls.
Proof.
  intros Hf. induction ls as [|l ls IH]; [reflexivity|].
  destruct l as [|c l]; simpl.
  - rewrite Hf. exact IH.
  - f_equal. exact IH.
Qed.

(** ** The read loops *)

Lemma pop_last_spec (l : list jsstring) :
  l <> [] -> pop_last l = (removelast l, Some (last l [])).
Proof.
  intros Hne. unfold pop_last.
  destruct (rev l) as [|x r] eqn:Hr.
  - apply (f_equal (@rev jsstring)) in Hr. rewrite rev_involutive in Hr.
    simpl in Hr. congruence.
  - apply (f_equal (@rev jsstring)) in Hr. rewrite rev_involutive in Hr.
    simpl in Hr. subst l. rewrite removelast_last, last_last. reflexivity.
Qed.

Lemma opt_or_some_nil (x : jsstring) : opt_or (Some x) [] = x.
Proof. destruct x; reflexivity. Qed.

(** The frame loop handles the events that a single split of the whole
    text would give, whatever the chunks: all pieces but the open last
    one. *)
Lemma openai_loop_chunks (cs : list jsstring) :
  forall buffer,
    split_blank buffer = [buffer] ->
    Route.openai_loop buffer cs =
    flat_map Route.openai_event
      (removelast (split_blank (buffer ++ List.concat cs))).
Proof.
  induction cs as [|c rest IH]; intros buffer Hb.
  - simpl. rewrite app_nil_r, Hb. reflexivity.
  - cbn [Route.openai_loop List.concat].
    rewrite pop_last_spec by apply split_blank_nonempty.
    rewrite opt_or_some_nil, IH by apply split_blank_last.
    rewrite app_assoc, (split_blank_app (buffer ++ c)).
    rewrite removelast_app by apply split_blank_nonempty.
    rewrite flat_map_app. reflexivity.
Qed.

(** Any two ways of cutting the same text into chunks give the frame
    loop the same events. *)
Lemma openai_deltas_whole (cs : list jsstring) :
  Route.openai_deltas cs =
  flat_map Route.openai_event (removelast (split_blank (List.concat cs))).
Proof. apply (openai_loop_chunks cs []). reflexivity. Qed.

Lemma ollama_chunk_group (g : list jsstring) :
  Forall no_newline g ->
  ollama_chunk (framed nl g) = flat_map ollama_line g.
Proof.
  intros Hg. unfold ollama_chunk.
  rewrite (split_lines_framed g Hg).
  rewrite flat_map_filter_nonempty by reflexivity.
  rewrite flat_map_app. simpl. apply app_nil_r.
Qed.

Lemma ollama_deltas_groups (groups : list (list jsstring)) :
  Forall no_newline (List.concat groups) ->
  ollama_deltas (map (framed nl) groups) =
  flat_map ollama_line (List.concat groups).
Proof.
  unfold ollama_deltas.
  induction groups as [|g gs IH]; intros H; [reflexivity|].
  cbn [List.concat] in H. apply Forall_app in H as [Hg Hgs].
  cbn [map flat_map List.concat].
  rewrite flat_map_app, (ollama_chunk_group g Hg), (IH Hgs). reflexivity.
Qed.

Lemma write_truthy (v : json) : truthy (Some v) = true -> write_if_truthy (Some v) = [v].
Proof. intros H. unfold write_if_truthy. rewrite H. reflexivity. Qed.

Lemma ollama_line_frame (l : jsstring) (v : json) :
  ollama_frame l v -> ollama_line l = [v].
Proof.
  intros (_ & obj & Hp & Hg & Ht). unfold ollama_line. rewrite Hp.
  destruct obj; try discriminate Hg; rewrite Hg; apply write_truthy, Ht.
Qed.


Lemma flat_map_frames (A : Type) (R : A -> json -> Prop) (f : A -> list json)
      (ls : list A) (vs : list json) :
  (forall l v, R l v -> f l = [v]) ->
  Forall2 R ls vs -> flat_map f ls = vs.
Proof.
  intros HR. induction 1 as [|l v ls vs H _ IH]; [reflexivity|].
  simpl. rewrite (HR l v H), IH. reflexivity.
Qed.

Lemma Forall2_Forall_left (A B : Type) (R : A -> B -> Prop) (P : A -> Prop)
      (ls : list A) (vs : list B) :
  (forall l v, R l v -> P l) -> Forall2 R ls vs -> Forall P ls.
Proof.
  intros HR. induction 1; constructor; eauto.
Qed.

Lemma done_marker_not_json : JSON_parse (js "[DONE]") = None.
Proof. vm_compute. reflexivity. Qed.

Lemma openai_event_frame (f : jsstring) (v : json) :
  openai_frame f v -> Route.openai_event f = [v].
Proof.
  intros (_ & Hd & obj & Hp & Hc & Ht). unfold Route.openai_event.
  rewrite Hd. cbn [negb].
  destruct (str_eqb (trim (skipn 5 f)) (js "[DONE]")) eqn:E.
  - apply str_eqb_eq in E. rewrite E, done_marker_not_json in Hp. discriminate.
  - rewrite Hp. unfold openai_content in Hc.
    destruct obj; try (cbv in Hc; discriminate Hc);
      rewrite Hc; apply write_truthy, Ht.
Qed.


Lemma no_newline_check (l : jsstring) :
  forallb (fun c => negb (N.eqb c 10)) l = true -> no_newline l.
Proof.
  intros H. apply Forall_forall. intros c Hc.
  rewrite forallb_forall in H. specialize (H c Hc).
  apply negb_true_iff, N.eqb_neq in H. exact H.
Qed.

Ltac frame_facts :=
  repeat match goal with
         | |- _ /\ _ => split
         | |- exists _, _ => eexists
         | |- no_newline _ => apply no_newline_check; vm_compute; reflexivity
         | |- sse_frame _ => split
         | |- _ <> _ => vm_compute; discriminate
         | |- _ = _ => vm_compute; reflexivity
         end.

(** ** The handler of part_000 *)

Lemma resolve_input_events (w : world) (req : request) :
  fst (Part000.resolve_input w req) = [] \/
  exists u, url req = Some u /\ u <> [] /\ opt_or (html req) [] = [] /\
            fst (Part000.resolve_input w req) = [PageFetch u].
Proof.
  unfold Part000.resolve_input.
  destruct (url req) as [u|]; [|left; reflexivity].
  destruct (nonempty (opt_or (html req) [])) eqn:Hh; simpl;
    [left; reflexivity|].
  destruct (nonempty u) eqn:Hu; simpl; [|left; reflexivity].
  destruct (Part000.is_http_url u); [|left; reflexivity].
  right. exists u. apply nonempty_false in Hh. apply nonempty_true in Hu.
  destruct (page w u); simpl; auto.
Qed.

Lemma resolve_input_no_model_fetch (w : world) (req : request) (e : event) :
  In e (fst (Part000.resolve_input w req)) -> is_model_fetch e = false.
Proof.
  destruct (resolve_input_events w req) as [-> | (u & _ & _ & _ & ->)].
  - intros [].
  - intros [<- | []]. reflexivity.
Qed.

Lemma resolve_input_inline (w : world) (req : request) (h : jsstring) :
  html req = Some h -> h <> [] -> Part000.resolve_input w req = ([], h).
Proof.
  intros Hh Hne. unfold Part000.resolve_input. rewrite Hh. simpl.
  unfold str_or. apply nonempty_true in Hne. rewrite Hne.
  destruct (url req); [rewrite Hne|]; reflexivity.
Qed.

(** The fetches of a run are those of the input resolution followed by at
    most one call to a model provider. *)
Lemma POST_events (w : world) (req : request) :
  events (Part000.POST w req) = fst (Part000.resolve_input w req) \/
  exists c, events (Part000.POST w req) =
            fst (Part000.resolve_input w req) ++ [ModelFetch c].
Proof.
  unfold Part000.POST.
  destruct (Part000.resolve_input w req) as [f h]. simpl.
  destruct (nonempty h); simpl; [|left; reflexivity].
  destruct (str_eqb (provider req) (js "ollama")); simpl; [right; eauto|].
  destruct (str_eqb (provider req) (js "gemini")); simpl; [|left; reflexivity].
  destruct (Part000.gemini_key w req) as [k|]; simpl; [|left; reflexivity].
  destruct (nonempty k); simpl; [right; eauto | left; reflexivity].
Qed.

Lemma gemini_succeeded_result (w : world) (req : request) (r : reply) :
  gemini_succeeded w req r ->
  result (Part000.POST w req) = Some (Part000.gemini_response r).
Proof.
  intros (Hp & c & Hin & Hup & _).
  pose proof (resolve_input_no_model_fetch w req) as Hev.
  revert Hin. unfold Part000.POST.
  destruct (Part000.resolve_input w req) as [f h]. simpl in Hev.
  assert (Hf : In (ModelFetch c) f -> False).
  { intros Hin. apply Hev in Hin. discriminate. }
  rewrite Hp.
  change (str_eqb (js "gemini") (js "ollama")) with false.
  change (str_eqb (js "gemini") (js "gemini")) with true.
  cbv beta iota.
  destruct (nonempty h); simpl; [|intros Hin; destruct (Hf Hin)].
  destruct (Part000.gemini_key w req) as [k|]; simpl;
    [|intros Hin; destruct (Hf Hin)].
  destruct (nonempty k); simpl; [|intros Hin; destruct (Hf Hin)].
  intros Hin. apply in_app_or in Hin as [Hin | [Heq | []]]; [destruct (Hf Hin)|].
  injection Heq as <-. rewrite Hup. reflexivity.
Qed.

Lemma gemini_response_ok (r : reply) :
  ok r = true ->
  Part000.gemini_response r =
    {| status := 200; headers := content_text;
       body := [delta_line (JStr (Part000.gemini_delta (reply_text r)))] |}.
Proof. intros H. unfold Part000.gemini_response. rewrite H. reflexivity. Qed.


(* ================================================================== *)
(** * The claims *)
(* ================================================================== *)

(** C1, as stated, fails: for an upstream document whose first candidate
    has the single part [Hi], the specification asks for the delta [Hi];
    the handler writes the marker followed by [[empty text]]. *)
Lemma gemini_delta_not_extracted :
  gemini_succeeded (world_of None (Some reply_hi) dom_shop) req_gemini reply_hi /\
  spec_gemini_delta (reply_text reply_hi) = js "Hi" /\
  option_map body
    (result (Part000.POST (world_of None (Some reply_hi) dom_shop) req_gemini)) =
    Some [jq "{'delta':'[gemini ok]\n[empty text]'}" ++ nl] /\
  option_map body
    (result (Part000.POST (world_of None (Some reply_hi) dom_shop) req_gemini)) <>
    Some [delta_line (JStr (spec_gemini_delta (reply_text reply_hi)))].
Proof.
  split; [|split; [|split]].
  - split; [reflexivity|].
    eexists. split; [left; reflexivity|]. split; reflexivity.
  - vm_compute. reflexivity.
  - vm_compute. reflexivity.
  - vm_compute. discriminate.
Qed.

(** C1, amended. For every content-generation request whose upstream call
    returns a success status, the response has status 200 and its body
    is exactly one newline-terminated [{"delta": string}] record; the
    delta is the marker [[gemini ok]], a line feed and a payload. When
    the extraction throws, the payload is the raw upstream body, and
    when that body is empty the payload is [[empty text]]. *)
Theorem gemini_one_record (w : world) (req : request) (r : reply) :
  gemini_succeeded w req r ->
  exists payload,
    result (Part000.POST w req) =
      Some {| status := 200; headers := content_text;
              body := [delta_line (JStr (js "[gemini ok]" ++ nl ++ payload))] |} /\
    (Part000.gemini_extract (reply_text r) = None ->
     reply_text r <> [] -> payload = reply_text r) /\
    (reply_text r = [] -> payload = js "[empty text]").
Proof.
  intros H. pose proof (gemini_succeeded_result w req r H) as Hres.
  destruct H as (_ & _ & _ & _ & Hok).
  rewrite (gemini_response_ok r Hok) in Hres.
  exists (str_or (Part000.gemini_text (reply_text r)) (js "[empty text]")).
  split; [exact Hres|]. unfold Part000.gemini_text. split.
  - intros -> Hne. unfold str_or. apply nonempty_true in Hne. rewrite Hne.
    reflexivity.
  - intros ->. destruct (Part000.gemini_extract []); reflexivity.
Qed.

Lemma gemini_one_record_witness :
  exists payload,
    result (Part000.POST (world_of None (Some reply_plain) dom_shop) req_gemini) =
      Some {| status := 200; headers := content_text;
              body := [delta_line (JStr (js "[gemini ok]" ++ nl ++ payload))] |} /\
    (Part000.gemini_extract (reply_text reply_plain) = None ->
     reply_text reply_plain <> [] -> payload = reply_text reply_plain) /\
    (reply_text reply_plain = [] -> payload = js "[empty text]").
Proof.
  apply gemini_one_record.
  split; [reflexivity|].
  eexists. split; [left; reflexivity|]. split; reflexivity.
Defined.

(** C2, at a failing input. The local provider answers with status 404
    and the body [{"error":"model not found"}]: the handler of part_000
    answers 200 with an empty body, and so does the chat-completions
    branch of route.ts; only the gemini branch of part_000 forwards the
    status and the body. *)
Theorem upstream_error_not_forwarded :
  ok reply_404 = false /\
  result (Part000.POST (world_of None (Some reply_404) dom_shop) req_ollama) =
    Some {| status := 200; headers := content_chunked; body := [] |} /\
  result (Route.POST (world_of None (Some reply_404) dom_shop) req_openai) =
    Some {| status := 200; headers := content_chunked; body := [] |} /\
  result (Part000.POST (world_of None (Some reply_404) dom_shop) req_gemini) =
    Some {| status := 404; headers := content_text;
            body := [reply_text reply_404] |}.
Proof. vm_compute. repeat split; reflexivity. Qed.

(** C3, as stated, fails in route.ts: with inline markup and a URL, the
    URL is fetched and its text replaces the inline markup. *)
Lemma route_fetches_despite_inline_html :
  html req_both = Some html_shop /\ html_shop <> [] /\
  Route.resolve_input world_fetched req_both =
    ([PageFetch (js "http://a.test")], js "<p>fetched</p>").
Proof.
  split; [reflexivity|]. split; [discriminate|].
  vm_compute. reflexivity.
Qed.

(** C3, amended. In part_000, non-empty inline markup is used as it is
    and no page is fetched, whether or not a URL is given; a page fetch
    happens only when the inline markup is absent or empty and a URL is
    given, and then once. In route.ts a URL that starts with [http] is
    always fetched, once, and what it returns is the markup. *)
Theorem inline_html_precedence :
  (forall w req h,
      html req = Some h -> h <> [] ->
      Part000.resolve_input w req = ([], h) /\
      forall e, In e (events (Part000.POST w req)) -> is_model_fetch e = true) /\
  (forall w req,
      fst (Part000.resolve_input w req) <> [] ->
      opt_or (html req) [] = [] /\
      exists u, url req = Some u /\ u <> [] /\
                fst (Part000.resolve_input w req) = [PageFetch u]) /\
  (forall w req u,
      url req = Some u -> startsWith (js "http") u = true ->
      fst (Route.resolve_input w req) = [PageFetch u] /\
      forall t, page w u = Some t -> snd (Route.resolve_input w req) = t).
Proof.
  split; [|split].
  - intros w req h Hh Hne.
    pose proof (resolve_input_inline w req h Hh Hne) as Hr.
    split; [exact Hr|].
    intros e. destruct (POST_events w req) as [-> | (c & ->)]; rewrite Hr; simpl.
    + intros [].
    + intros [<- | []]. reflexivity.
  - intros w req Hne.
    destruct (resolve_input_events w req) as [H | (u & Hu & Hune & Hh & Hf)];
      [contradiction|].
    split; [exact Hh|]. exists u. auto.
  - intros w req u Hu Hs. unfold Route.resolve_input. rewrite Hu, Hs.
    assert (Hn : nonempty u = true) by (destruct u; [discriminate | reflexivity]).
    rewrite Hn. simpl. destruct (page w u) as [t|]; simpl.
    + split; [reflexivity|]. intros t' Ht. congruence.
    + split; [reflexivity|]. intros t' Ht. discriminate.
Qed.

Lemma inline_html_precedence_witness :
  Part000.resolve_input world_fetched req_both = ([], html_shop) /\
  fst (Part000.resolve_input world_fetched req_only_url) =
    [PageFetch (js "http://a.test")] /\
  Route.resolve_input world_fetched req_both =
    ([PageFetch (js "http://a.test")], js "<p>fetched</p>").
Proof.
  split; [|split].
  - apply (proj1 inline_html_precedence world_fetched req_both html_shop);
      [reflexivity | discriminate].
  - destruct (proj1 (proj2 inline_html_precedence) world_fetched req_only_url)
      as (_ & u & Hu & _ & Hf).
    + discriminate.
    + injection Hu as <-. exact Hf.
  - destruct (proj2 (proj2 inline_html_precedence) world_fetched req_both
                (js "http://a.test")) as (Hf & Ht); [reflexivity | reflexivity |].
    rewrite (surjective_pairing (Route.resolve_input world_fetched req_both)), Hf.
    rewrite (Ht (js "<p>fetched</p>")) by reflexivity. reflexivity.
Defined.

(** C4, as stated, fails in route.ts: an element that only carries the
    class [btn] is not counted. *)
Lemma route_buttons_miss_class :
  buttons (Route.runRules dom_buttons) = 1 /\
  List.length (distinct_matches button_criteria dom_buttons) = 2.
Proof. vm_compute. split; reflexivity. Qed.

(** C4, amended. In part_000, [buttons] is the number of distinct
    elements that are a [button], an anchor with [role=button], carry the
    class [btn] or have a [data-testid] containing [button], an element
    meeting several criteria being counted once. In route.ts, [buttons]
    is the number of distinct elements meeting one of the first two
    criteria. *)
Theorem buttons_count_distinct :
  (forall d, buttons (Part000.runRules d) =
             List.length (distinct_matches button_criteria d)) /\
  (forall d, buttons (Route.runRules d) =
             List.length (distinct_matches [is_button; is_role_button_anchor] d)).
Proof.
  split; intros d; simpl.
  - apply length_select, buttons_criteria.
  - apply length_select, route_buttons_criteria.
Qed.

(** In part_000 the first element of [dom_buttons] meets three criteria
    and the second one criterion; two elements are counted. *)
Lemma buttons_counted_once :
  map (fun c => List.length (positions c dom_buttons)) button_criteria =
    [1; 0; 2; 1] /\
  buttons (Part000.runRules dom_buttons) = 2.
Proof. vm_compute. split; reflexivity. Qed.

(** C5. When some element matches the call-to-action candidate set,
    [primaryCtaGuess] is the trimmed text of the candidate that comes
    first in document order across the union of the four selectors, in
    both handlers: if position [i] is a candidate and no candidate comes
    before it, the guess is the trimmed text of the element at [i]. *)
Theorem cta_document_order (d : document) (i : nat) :
  In i (cta_candidates d) ->
  (forall j, In j (cta_candidates d) -> i <= j) ->
  exists e, nth_error (all_elements d) i = Some e /\
            primaryCtaGuess (Part000.runRules d) = trim (textContent e) /\
            primaryCtaGuess (Route.runRules d) = trim (textContent e).
Proof.
  intros Hin Hmin.
  destruct (cta_first d i Hin Hmin) as (e & Hi & Hf).
  exists e. split; [exact Hi|].
  simpl. rewrite Hf, text_single. split; reflexivity.
Qed.

Lemma cta_document_order_witness :
  cta_candidates dom_cta = [2; 1] /\
  exists e, nth_error (all_elements dom_cta) 1 = Some e /\
            primaryCtaGuess (Part000.runRules dom_cta) = trim (textContent e) /\
            primaryCtaGuess (Route.runRules dom_cta) = trim (textContent e).
Proof.
  split; [vm_compute; reflexivity|].
  apply (cta_document_order dom_cta 1).
  - vm_compute. auto.
  - vm_compute. intros j [<- | [<- | []]]; lia.
Defined.

(** The submit-button selector is written first and has a match, and yet
    the anchor, which comes first in the document, gives the guess. *)
Lemma cta_anchor_before_submit :
  text (first (select [cta_submit] dom_cta)) = js "Go" /\
  primaryCtaGuess (Part000.runRules dom_cta) = js "Later CTA" /\
  primaryCtaGuess (Route.runRules dom_cta) = js "Later CTA".
Proof. vm_compute. repeat split; reflexivity. Qed.

(** C6, at a failing input. The upstream line [{"response":"Hello"}]
    arrives in two reads, cut inside the frame: the line loop writes
    nothing, where the same text in one read gives the record for
    [Hello]. *)
Theorem split_frame_is_lost :
  List.concat (chunks reply_split) = List.concat (chunks reply_whole) /\
  result (Part000.POST (world_of None (Some reply_whole) dom_shop) req_ollama) =
    Some {| status := 200; headers := content_chunked;
            body := [jq "{'delta':'Hello'}" ++ nl] |} /\
  result (Part000.POST (world_of None (Some reply_split) dom_shop) req_ollama) =
    Some {| status := 200; headers := content_chunked; body := [] |} /\
  result (Route.POST (world_of None (Some reply_split) dom_shop) req_ollama) =
    Some {| status := 200; headers := content_chunked; body := [] |}.
Proof. vm_compute. repeat split; reflexivity. Qed.

(** C7. A request that resolves to empty markup, or names a provider
    other than [ollama] and [gemini], or names [gemini] with no key in
    the request or the environment, is answered with status 400 and a
    JSON body [{"error": msg}], and no model provider is called. *)
Theorem input_errors_fail_fast (w : world) (req : request) :
  snd (Part000.resolve_input w req) = [] \/
  (provider req <> js "ollama" /\ provider req <> js "gemini") \/
  (provider req = js "gemini" /\ no_key w req) ->
  exists msg,
    result (Part000.POST w req) =
      Some {| status := 400; headers := content_json;
              body := [JSON_stringify (JObj [(js "error", JStr msg)])] |} /\
    forall e, In e (events (Part000.POST w req)) -> is_model_fetch e = false.
Proof.
  intros H.
  pose proof (resolve_input_no_model_fetch w req) as Hev.
  unfold Part000.POST.
  destruct (Part000.resolve_input w req) as [f h]. simpl in *.
  destruct (nonempty h) eqn:Hh; simpl.
  2:{ eexists. split; [reflexivity | exact Hev]. }
  destruct H as [-> | H]; [discriminate|].
  destruct (str_eqb (provider req) (js "ollama")) eqn:Ho.
  { apply str_eqb_eq in Ho. destruct H as [[Hn _] | [Hg _]]; [contradiction|].
    rewrite Hg in Ho. discriminate. }
  destruct (str_eqb (provider req) (js "gemini")) eqn:Hg.
  2:{ eexists. split; [reflexivity | exact Hev]. }
  apply str_eqb_eq in Hg.
  destruct H as [[_ Hn] | [_ [Hk He]]]; [contradiction|].
  assert (Hkey : Part000.gemini_key w req = None \/ Part000.gemini_key w req = Some []).
  { unfold Part000.gemini_key. destruct Hk as [-> | ->]; simpl; exact He. }
  destruct Hkey as [-> | ->]; simpl; eexists; split; try reflexivity; exact Hev.
Qed.

Lemma input_errors_fail_fast_witness :
  exists msg,
    result (Part000.POST (world_of None None dom_shop)
              (request_of None (Some html_shop) "gemini" None)) =
      Some {| status := 400; headers := content_json;
              body := [JSON_stringify (JObj [(js "error", JStr msg)])] |} /\
    forall e, In e (events (Part000.POST (world_of None None dom_shop)
                              (request_of None (Some html_shop) "gemini" None))) ->
              is_model_fetch e = false.
Proof.
  apply input_errors_fail_fast. right. right.
  split; [reflexivity|]. split; left; reflexivity.
Defined.



(** C9. On the markup
    [<html><title>Shop</title><button type=submit>Buy</button></html>],
    once parsed, the extractor returns title [Shop], no viewport, no
    forms, inputs or labels, one button, the guess [Buy], no validation
    hint and no progress; the prompt built from it contains
    [primaryCtaGuess: "Buy"] and is the prompt sent to the local
    provider. *)
Theorem shop_example (w : world) :
  load w html_shop = dom_shop ->
  Part000.runRules (load w html_shop) = shop_signals /\
  includes (jq "primaryCtaGuess: 'Buy'")
    (Part000.buildPrompt html_shop (Part000.runRules (load w html_shop))) = true /\
  events (Part000.POST w (request_of None (Some html_shop) "ollama" None)) =
    [ModelFetch (Part000.ollama_call (request_of None (Some html_shop) "ollama" None)
                   (Part000.buildPrompt html_shop shop_signals))].
Proof.
  intros Hload.
  assert (Hs : Part000.runRules (load w html_shop) = shop_signals).
  { rewrite Hload. vm_compute. reflexivity. }
  split; [exact Hs|]. split.
  - rewrite Hs. vm_compute. reflexivity.
  - unfold Part000.POST.
    change (Part000.resolve_input w (request_of None (Some html_shop) "ollama" None))
      with (@nil event, html_shop).
    cbv beta iota. rewrite Hs. reflexivity.
Qed.

Lemma shop_example_witness :
  load world_shop html_shop = dom_shop /\
  Part000.runRules (load world_shop html_shop) = shop_signals /\
  includes (jq "primaryCtaGuess: 'Buy'")
    (Part000.buildPrompt html_shop
       (Part000.runRules (load world_shop html_shop))) = true /\
  events (Part000.POST world_shop req_ollama) =
    [ModelFetch (Part000.ollama_call req_ollama
                   (Part000.buildPrompt html_shop shop_signals))].
Proof.
  split; [reflexivity|]. apply (shop_example world_shop). reflexivity.
Defined.



(* ================================================================== *)
(** * Further properties of the code *)
(* ================================================================== *)

(** ** [JSON.stringify] followed by [JSON.parse], on strings *)

Lemma pair_ind (t : N -> N -> bool) (P : jsstring -> Prop) :
  P [] ->
  (forall c, P [c]) ->
  (forall c d r, t c d = true -> P r -> P (c :: d :: r)) ->
  (forall c d r, t c d = false -> P (d :: r) -> P (c :: d :: r)) ->
  forall s, P s.
Proof.
  intros H0 H1 Hpair Hone s.
  assert (H : forall n s, List.length s <= n -> P s).
  { clear s. induction n as [|n IH]; intros s Hn.
    - destruct s; [exact H0 | simpl in Hn; lia].
    - destruct s as [|c [|d r]]; [exact H0 | apply H1 |].
      simpl in Hn. destruct (t c d) eqn:E.
      + apply Hpair; [exact E | apply IH; lia].
      + apply Hone; [exact E | apply IH; simpl; lia]. }
  apply (H (List.length s)). lia.
Qed.

Lemma lex_silent (st st' : lex_state) (c : N) (r : jsstring) :
  lex_step st c = Some (st', []) -> lex st (c :: r) = lex st' r.
Proof.
  intros H. cbn [lex]. rewrite H. destruct (lex st' r); reflexivity.
Qed.

Lemma hex_value_digit (d : N) :
  (d < 16)%N -> hex_value (hex_digit d) = Some d.
Proof.
  intros H. unfold hex_digit, hex_value, is_digit.
  destruct (d <? 10)%N eqn:E.
  - apply N.ltb_lt in E.
    replace ((48 <=? 48 + d) && (48 + d <=? 57))%N with true
      by (symmetry; apply andb_true_iff; split; apply N.leb_le; lia).
    f_equal. lia.
  - apply N.ltb_ge in E.
    replace ((48 <=? 87 + d) && (87 + d <=? 57))%N with false
      by (symmetry; apply andb_false_iff; right; apply N.leb_gt; lia).
    replace ((97 <=? 87 + d) && (87 + d <=? 102))%N with true
      by (symmetry; apply andb_true_iff; split; apply N.leb_le; lia).
    f_equal. lia.
Qed.

Lemma hex4_value (c : N) :
  (c < 65536)%N ->
  (16 * (16 * (16 * (16 * 0 + c / 4096 mod 16) + c / 256 mod 16)
         + c / 16 mod 16) + c mod 16 = c)%N.
Proof.
  intros H.
  pose proof (N.div_mod c 16 ltac:(discriminate)).
  pose proof (N.div_mod (c / 16) 16 ltac:(discriminate)).
  pose proof (N.div_mod (c / 16 / 16) 16 ltac:(discriminate)).
  rewrite N.Div0.div_div in *.
  change (16 * 16)%N with 256%N in *.
  rewrite N.Div0.div_div in *.
  change (256 * 16)%N with 4096%N in *.
  assert (c / 4096 < 16)%N by (apply N.Div0.div_lt_upper_bound; lia).
  rewrite (N.mod_small (c / 4096) 16) by assumption.
  lia.
Qed.

Lemma lex_unicode (acc rest : jsstring) (c : N) :
  (c < 65536)%N ->
  lex (LStr acc) (js "\u" ++ hex4 c ++ rest) = lex (LStr (c :: acc)) rest.
Proof.
  intros H.
  assert (Hd : forall x, hex_value (hex_digit (x mod 16)) = Some (x mod 16)%N).
  { intros x. apply hex_value_digit, N.mod_lt. discriminate. }
  change (js "\u" ++ hex4 c ++ rest)
    with (92 :: 117 :: hex_digit (c / 4096 mod 16) :: hex_digit (c / 256 mod 16)
             :: hex_digit (c / 16 mod 16) :: hex_digit (c mod 16) :: rest)%N.
  rewrite (lex_silent (LStr acc) (LEsc acc)) by reflexivity.
  rewrite (lex_silent (LEsc acc) (LUni acc 0 0%N)) by reflexivity.
  rewrite (lex_silent (LUni acc 0 0%N)
             (LUni acc 1 (16 * 0 + c / 4096 mod 16)%N))
    by (cbn [lex_step]; rewrite Hd; reflexivity).
  rewrite (lex_silent _ (LUni acc 2 (16 * (16 * 0 + c / 4096 mod 16) + c / 256 mod 16)%N))
    by (cbn [lex_step]; rewrite Hd; reflexivity).
  rewrite (lex_silent _ (LUni acc 3 (16 * (16 * (16 * 0 + c / 4096 mod 16) + c / 256 mod 16) + c / 16 mod 16)%N))
    by (cbn [lex_step]; rewrite Hd; reflexivity).
  rewrite (lex_silent _ (LStr (c :: acc))).
  - reflexivity.
  - cbn [lex_step]. rewrite Hd. cbn [Nat.eqb]. rewrite (hex4_value c H). reflexivity.
Qed.

Lemma lex_escaped (acc rest : jsstring) (e c : N) :
  N.eqb e 117 = false -> lex_escape e = Some c ->
  lex (LStr acc) (92 :: e :: rest)%N = lex (LStr (c :: acc)) rest.
Proof.
  intros Hu He.
  rewrite (lex_silent (LStr acc) (LEsc acc)) by reflexivity.
  apply lex_silent. cbn [lex_step]. rewrite Hu, He. reflexivity.
Qed.

(** What the lexer makes of the escape of one code unit. *)
Lemma lex_escape_unit (acc rest : jsstring) (c : N) :
  lex (LStr acc) (escape_unit c ++ rest) = lex (LStr (c :: acc)) rest.
Proof.
  unfold escape_unit.
  destruct (N.eqb c 8) eqn:E8;
    [apply N.eqb_eq in E8; subst; apply (lex_escaped acc rest 98 8); reflexivity|].
  destruct (N.eqb c 9) eqn:E9;
    [apply N.eqb_eq in E9; subst; apply (lex_escaped acc rest 116 9); reflexivity|].
  destruct (N.eqb c 10) eqn:E10;
    [apply N.eqb_eq in E10; subst; apply (lex_escaped acc rest 110 10); reflexivity|].
  destruct (N.eqb c 12) eqn:E12;
    [apply N.eqb_eq in E12; subst; apply (lex_escaped acc rest 102 12); reflexivity|].
  destruct (N.eqb c 13) eqn:E13;
    [apply N.eqb_eq in E13; subst; apply (lex_escaped acc rest 114 13); reflexivity|].
  destruct (N.eqb c 34) eqn:E34;
    [apply N.eqb_eq in E34; subst; apply (lex_escaped acc rest 34 34); reflexivity|].
  destruct (N.eqb c 92) eqn:E92;
    [apply N.eqb_eq in E92; subst; apply (lex_escaped acc rest 92 92); reflexivity|].
  destruct ((c <? 32)%N || is_high c || is_low c) eqn:Eu.
  - rewrite <- app_assoc. apply lex_unicode.
    unfold is_high, is_low in Eu.
    destruct (c <? 32)%N eqn:E32; [apply N.ltb_lt in E32; lia|].
    destruct ((55296 <=? c) && (c <=? 56319))%N eqn:Eh.
    + apply andb_true_iff in Eh as [_ Eh]. apply N.leb_le in Eh. lia.
    + cbn [orb] in Eu. apply andb_true_iff in Eu as [_ Eu].
      apply N.leb_le in Eu. lia.
  - apply orb_false_iff in Eu as [Eu _]. apply orb_false_iff in Eu as [Eu _].
    change ([c] ++ rest) with (c :: rest).
    apply lex_silent. cbn [lex_step]. rewrite E34, E92, Eu. reflexivity.
Qed.

Lemma lex_raw_surrogate (acc rest : jsstring) (c : N) :
  is_high c || is_low c = true ->
  lex (LStr acc) (c :: rest) = lex (LStr (c :: acc)) rest.
Proof.
  intros H. apply lex_silent. cbn [lex_step].
  assert (Hc : (55296 <= c)%N).
  { unfold is_high, is_low in H. apply orb_true_iff in H as [H | H];
      apply andb_true_iff in H as [H _]; apply N.leb_le in H; lia. }
  replace (N.eqb c 34) with false by (symmetry; apply N.eqb_neq; lia).
  replace (N.eqb c 92) with false by (symmetry; apply N.eqb_neq; lia).
  replace (c <? 32)%N with false by (symmetry; apply N.ltb_ge; lia).
  reflexivity.
Qed.

Lemma lex_quote_body (s : jsstring) :
  forall acc rest,
    lex (LStr acc) (quote_body s ++ rest) = lex (LStr (rev s ++ acc)) rest.
Proof.
  induction s as [| c | c d r E IH | c d r E IH]
    using (pair_ind (fun c d => is_high c && is_low d)); intros acc rest.
  - reflexivity.
  - cbn [quote_body rev app]. apply lex_escape_unit.
  - cbn [quote_body]. rewrite E.
    apply andb_true_iff in E as [Ec Ed].
    cbn [app]. rewrite lex_raw_surrogate by (rewrite Ec; reflexivity).
    rewrite lex_raw_surrogate by (rewrite Ed; apply orb_true_r).
    rewrite IH. cbn [rev]. rewrite <- !app_assoc. reflexivity.
  - cbn [quote_body]. rewrite E, <- app_assoc, lex_escape_unit, IH.
    cbn [rev]. rewrite <- !app_assoc. reflexivity.
Qed.

(** A quoted string, wherever a value may start, is read as one token:
    the string itself. *)
Lemma lex_quote (s rest : jsstring) :
  lex LIdle (quote s ++ rest) =
  option_map (cons (TScalar (JStr s))) (lex LIdle rest).
Proof.
  unfold quote. cbn [app].
  rewrite (lex_silent LIdle (LStr [])) by reflexivity.
  rewrite <- app_assoc, lex_quote_body, app_nil_r.
  cbn [app lex lex_step]. rewrite N.eqb_refl, rev_involutive.
  destruct (lex LIdle rest); reflexivity.
Qed.

Lemma JSON_parse_quote (s : jsstring) : JSON_parse (quote s) = Some (JStr s).
Proof.
  unfold JSON_parse. rewrite <- (app_nil_r (quote s)), lex_quote. reflexivity.
Qed.

Lemma lex_punct (c : N) (t : token) (rest : jsstring) :
  lex_idle c = Some (LIdle, [t]) ->
  lex LIdle (c :: rest) = option_map (cons t) (lex LIdle rest).
Proof.
  intros H. cbn [lex lex_step]. rewrite H.
  destruct (lex LIdle rest); reflexivity.
Qed.

Lemma own_props_single (V : Type) (k : jsstring) (v : V) :
  own_props [(k, v)] = [(k, v)].
Proof.
  unfold own_props, define_all. cbn [fold_left set_prop fst snd filter].
  destruct (index_of_key k); reflexivity.
Qed.

Lemma stringify_field (k s : jsstring) :
  JSON_stringify (JObj [(k, JStr s)]) =
  js "{" ++ (quote k ++ js ":" ++ quote s) ++ js "}".
Proof.
  cbn [JSON_stringify map fst snd]. rewrite own_props_single. reflexivity.
Qed.

(** A record with one string member is read back as it was written. *)
Lemma JSON_parse_field (k s : jsstring) :
  JSON_parse (JSON_stringify (JObj [(k, JStr s)])) = Some (JObj [(k, JStr s)]).
Proof.
  rewrite stringify_field. unfold JSON_parse.
  change (js "{" ++ (quote k ++ js ":" ++ quote s) ++ js "}")
    with (123%N :: (quote k ++ js ":" ++ quote s) ++ js "}").
  rewrite (lex_punct 123 TLBrace) by reflexivity.
  rewrite <- !app_assoc, lex_quote.
  change (js ":" ++ quote s ++ js "}") with (58%N :: quote s ++ js "}").
  rewrite (lex_punct 58 TColon) by reflexivity.
  rewrite lex_quote. reflexivity.
Qed.

Lemma escape_unit_no_newline (c : N) : no_newline (escape_unit c).
Proof.
  assert (Hh : forall d, hex_digit d <> 10%N).
  { intros d. unfold hex_digit. destruct (d <? 10)%N; lia. }
  unfold escape_unit, no_newline.
  repeat match goal with
         | |- context [if ?b then _ else _] => destruct b eqn:?
         end;
    try (apply no_newline_check; reflexivity).
  - unfold hex4. change (js "\u") with [92; 117]%N.
    repeat constructor; try discriminate; apply Hh.
  - constructor; [|constructor]. intros ->. discriminate.
Qed.

Lemma quote_body_no_newline (s : jsstring) : no_newline (quote_body s).
Proof.
  induction s as [| c | c d r E IH | c d r E IH]
    using (pair_ind (fun c d => is_high c && is_low d)).
  - constructor.
  - apply escape_unit_no_newline.
  - cbn [quote_body]. rewrite E.
    apply andb_true_iff in E as [Ec Ed].
    unfold is_high, is_low in Ec, Ed.
    apply andb_true_iff in Ec as [Ec _]. apply andb_true_iff in Ed as [Ed _].
    apply N.leb_le in Ec, Ed.
    constructor; [lia|]. constructor; [lia | exact IH].
  - cbn [quote_body]. rewrite E. apply Forall_app.
    split; [apply escape_unit_no_newline | exact IH].
Qed.

Lemma quote_no_newline (s : jsstring) : no_newline (quote s).
Proof.
  unfold quote. apply Forall_app. split; [repeat constructor; discriminate|].
  apply Forall_app. split; [apply quote_body_no_newline|].
  repeat constructor; discriminate.
Qed.

Lemma field_no_newline (k s : jsstring) :
  no_newline (JSON_stringify (JObj [(k, JStr s)])).
Proof.
  rewrite stringify_field.
  apply Forall_app. split; [apply no_newline_check; reflexivity|].
  apply Forall_app. split; [|apply no_newline_check; reflexivity].
  apply Forall_app. split; [apply quote_no_newline|].
  apply Forall_app. split; [apply no_newline_check; reflexivity|].
  apply quote_no_newline.
Qed.

(** ** The page reads what the route writes *)

Lemma route_page_reads_record (s : jsstring) :
  RoutePage.read_line (JSON_stringify (JObj [(js "delta", JStr s)])) = Some s.
Proof.
  unfold RoutePage.read_line. rewrite JSON_parse_field.
  change (get_field (js "delta") (JObj [(js "delta", JStr s)]))
    with (Some (JStr s)).
  cbn [truthy to_display]. destruct s; reflexivity.
Qed.

Lemma gather_nonempty (f : jsstring -> option jsstring) (ls : list jsstring) :
  f [] = Some [] -> gather f (filter_nonempty ls) = gather f ls.
Proof.
  intros Hf. induction ls as [|l ls IH]; [reflexivity|].
  destruct l as [|c l]; cbn [filter_nonempty filter nonempty gather].
  - rewrite Hf. fold (filter_nonempty ls). rewrite IH.
    destruct (gather f ls); reflexivity.
  - fold (filter_nonempty ls). rewrite IH. reflexivity.
Qed.

Lemma gather_app (f : jsstring -> option jsstring) (a b : list jsstring)
      (x y : jsstring) :
  gather f a = Some x -> gather f b = Some y ->
  gather f (a ++ b) = Some (x ++ y).
Proof.
  revert x. induction a as [|l a IH]; intros x Ha Hb.
  - injection Ha as <-. exact Hb.
  - cbn [app gather] in *. destruct (f l) as [u|]; [|discriminate].
    destruct (gather f a) as [v|]; [|discriminate].
    injection Ha as <-. rewrite (IH v eq_refl Hb), app_assoc. reflexivity.
Qed.

Lemma gather_map (f : jsstring -> option jsstring) (g : jsstring -> jsstring)
      (ss : list jsstring) :
  (forall s, f (g s) = Some s) ->
  gather f (map g ss) = Some (List.concat ss).
Proof.
  intros H. induction ss as [|s ss IH]; [reflexivity|].
  cbn [map gather List.concat]. rewrite H, IH. reflexivity.
Qed.

Lemma read_line_empty : RoutePage.read_line [] = Some [].
Proof. reflexivity. Qed.

Lemma read_chunk_records (ss : list jsstring) :
  RoutePage.read_chunk (List.concat (map (fun s => delta_line (JStr s)) ss)) =
  Some (List.concat ss).
Proof.
  unfold RoutePage.read_chunk.
  change (List.concat (map (fun s => delta_line (JStr s)) ss))
    with (List.concat
            (map (fun s => JSON_stringify (JObj [(js "delta", JStr s)]) ++ nl) ss)).
  rewrite <- (map_map (fun s => JSON_stringify (JObj [(js "delta", JStr s)]))
                (fun f => f ++ nl)).
  change (List.concat (map (fun f => f ++ nl) ?l)) with (framed nl l).
  rewrite split_lines_framed.
  - rewrite (gather_nonempty _ _ read_line_empty).
    rewrite <- (app_nil_r (List.concat ss)).
    apply gather_app; [|reflexivity].
    apply gather_map, route_page_reads_record.
  - apply Forall_forall. intros l Hl.
    apply in_map_iff in Hl as (s & <- & _). apply field_no_newline.
Qed.

Lemma read_all_regrouped (ss : list jsstring) (reads : list jsstring) :
  regrouped (map (fun s => delta_line (JStr s)) ss) reads ->
  RoutePage.read_all reads = Some (List.concat ss).
Proof.
  intros (groups & Hg & ->). revert ss Hg.
  induction groups as [|g gs IH]; intros ss Hg.
  - destruct ss; [reflexivity | discriminate].
  - cbn [List.concat] in Hg. symmetry in Hg.
    apply map_eq_app in Hg as (ss1 & ss2 & -> & Hg1 & Hg2).
    unfold RoutePage.read_all in *. cbn [map gather].
    rewrite <- Hg1, read_chunk_records, (IH ss2) by (symmetry; exact Hg2).
    rewrite concat_app. reflexivity.
Qed.

(** X1. The read loop of the page bundled with the route rebuilds the answer:
    when the records written for the string fragments ss arrive whole,
    grouped into reads in any way, the result is the concatenation of ss. *)
Theorem route_page_rebuilds_answer (ss : list jsstring) (reads : list jsstring) :
  regrouped (map (fun s => delta_line (JStr s)) ss) reads ->
  RoutePage.read_all reads = Some (List.concat ss).
Proof. apply read_all_regrouped. Qed.

Lemma stringify_request (st : RoutePage.state) :
  RoutePage.request_body st =
  js "{" ++ quote (js "url") ++ js ":" ++ quote (RoutePage.url st) ++ js ","
    ++ quote (js "html") ++ js ":" ++ quote (RoutePage.htmlInput st) ++ js ","
    ++ quote (js "provider") ++ js ":" ++ quote (RoutePage.provider st) ++ js "}".
Proof.
  unfold RoutePage.request_body, RoutePage.request_json.
  cbn [JSON_stringify map fst snd].
  change (own_props ?l) with l.
  cbn [map join fst snd]. rewrite <- !app_assoc. reflexivity.
Qed.

Lemma JSON_parse_request (st : RoutePage.state) :
  JSON_parse (RoutePage.request_body st) = Some (RoutePage.request_json st).
Proof.
  rewrite stringify_request. unfold JSON_parse.
  change (js "{" ++ ?r) with (123%N :: r).
  rewrite (lex_punct 123 TLBrace) by reflexivity.
  rewrite lex_quote.
  change (js ":" ++ ?r) with (58%N :: r).
  rewrite (lex_punct 58 TColon) by reflexivity.
  rewrite lex_quote.
  change (js "," ++ ?r) with (44%N :: r).
  rewrite (lex_punct 44 TComma) by reflexivity.
  rewrite lex_quote.
  change (js ":" ++ ?r) with (58%N :: r).
  rewrite (lex_punct 58 TColon) by reflexivity.
  rewrite lex_quote.
  change (js "," ++ ?r) with (44%N :: r).
  rewrite (lex_punct 44 TComma) by reflexivity.
  rewrite lex_quote.
  change (js ":" ++ ?r) with (58%N :: r).
  rewrite (lex_punct 58 TColon) by reflexivity.
  rewrite lex_quote. reflexivity.
Qed.

Lemma route_response_of_page (w : world) (st : RoutePage.state) :
  route_response w (RoutePage.request_body st) =
  result (Route.POST w (route_page_request st)).
Proof. unfold route_response. rewrite JSON_parse_request. reflexivity. Qed.

(** ** The shape of a run *)

Lemma route_resolve_input_events (w : world) (req : request) :
  fst (Route.resolve_input w req) = [] \/
  exists u, url req = Some u /\ startsWith (js "http") u = true /\
            fst (Route.resolve_input w req) = [PageFetch u].
Proof.
  unfold Route.resolve_input.
  destruct (url req) as [u|]; [|left; reflexivity].
  destruct (nonempty u); cbn [andb]; [|left; reflexivity].
  destruct (startsWith (js "http") u) eqn:Hs; [|left; reflexivity].
  right. exists u. destruct (page w u); auto.
Qed.

Lemma route_POST_events (w : world) (req : request) :
  events (Route.POST w req) = fst (Route.resolve_input w req) \/
  exists c, events (Route.POST w req) =
            fst (Route.resolve_input w req) ++ [ModelFetch c].
Proof.
  unfold Route.POST.
  destruct (Route.resolve_input w req) as [f h]. cbn [fst].
  destruct (nonempty h); cbn [negb]; [|left; reflexivity].
  destruct (str_eqb (provider req) (js "ollama"));
    [right; eexists; reflexivity|].
  destruct (str_eqb (provider req) (js "openai"));
    [right; eexists; reflexivity|].
  destruct (str_eqb (provider req) (js "gemini"));
    [right; eexists; reflexivity|].
  left; reflexivity.
Qed.

Lemma resolve_input_scheme (w : world) (req : request) (u : jsstring) :
  In (PageFetch u) (fst (Part000.resolve_input w req)) ->
  url req = Some u /\ Part000.is_http_url u = true.
Proof.
  unfold Part000.resolve_input.
  destruct (url req) as [u'|]; [|intros []].
  destruct (negb (nonempty (opt_or (html req) [])) && nonempty u'); cbn [andb];
    [|intros []].
  destruct (Part000.is_http_url u') eqn:Hs; [|intros []].
  destruct (page w u'); intros [H | []]; injection H as <-; auto.
Qed.

(** X2. A handler fetches a page only at the url of the request, and only when
    it has an http scheme: part_000 needs a prefix http:// or https:// in
    any letter case, the route needs the prefix http as written. *)
Theorem page_fetch_needs_http :
  (forall w req u,
      In (PageFetch u) (events (Part000.POST w req)) ->
      url req = Some u /\
      (startsWith_ci (js "http://") u = true \/
       startsWith_ci (js "https://") u = true)) /\
  (forall w req u,
      In (PageFetch u) (events (Route.POST w req)) ->
      url req = Some u /\ startsWith (js "http") u = true).
Proof.
  split; intros w req u Hin.
  - assert (H : In (PageFetch u) (fst (Part000.resolve_input w req))).
    { destruct (POST_events w req) as [E | (c & E)]; rewrite E in Hin;
        [exact Hin|].
      apply in_app_or in Hin as [Hin | [Hin | []]]; [exact Hin | discriminate]. }
    apply resolve_input_scheme in H as [Hu Hs]. split; [exact Hu|].
    apply orb_true_iff. exact Hs.
  - assert (H : In (PageFetch u) (fst (Route.resolve_input w req))).
    { destruct (route_POST_events w req) as [E | (c & E)]; rewrite E in Hin;
        [exact Hin|].
      apply in_app_or in Hin as [Hin | [Hin | []]]; [exact Hin | discriminate]. }
    destruct (route_resolve_input_events w req) as [E | (u' & Hu & Hs & E)];
      rewrite E in H; [destruct H|].
    destruct H as [H | []]. injection H as <-. auto.
Qed.

(** X3. Every run of either handler makes at most one page fetch followed by at
    most one call to a model provider, and nothing else. *)
Theorem one_fetch_then_one_call :
  (forall w req,
      exists fetched called,
        events (Part000.POST w req) = fetched ++ called /\
        (fetched = [] \/ exists u, fetched = [PageFetch u]) /\
        (called = [] \/ exists c, called = [ModelFetch c])) /\
  (forall w req,
      exists fetched called,
        events (Route.POST w req) = fetched ++ called /\
        (fetched = [] \/ exists u, fetched = [PageFetch u]) /\
        (called = [] \/ exists c, called = [ModelFetch c])).
Proof.
  split; intros w req.
  - assert (Hf : fst (Part000.resolve_input w req) = [] \/
                 exists u, fst (Part000.resolve_input w req) = [PageFetch u]).
    { destruct (resolve_input_events w req) as [E | (u & _ & _ & _ & E)];
        [left; exact E | right; eauto]. }
    destruct (POST_events w req) as [E | (c & E)].
    + exists (fst (Part000.resolve_input w req)), [].
      rewrite app_nil_r. auto.
    + exists (fst (Part000.resolve_input w req)), [ModelFetch c].
      split; [exact E|]. split; [exact Hf | right; eauto].
  - assert (Hf : fst (Route.resolve_input w req) = [] \/
                 exists u, fst (Route.resolve_input w req) = [PageFetch u]).
    { destruct (route_resolve_input_events w req) as [E | (u & _ & _ & E)];
        [left; exact E | right; eauto]. }
    destruct (route_POST_events w req) as [E | (c & E)].
    + exists (fst (Route.resolve_input w req)), [].
      rewrite app_nil_r. auto.
    + exists (fst (Route.resolve_input w req)), [ModelFetch c].
      split; [exact E|]. split; [exact Hf | right; eauto].
Qed.

(** ** What the handler of part_000 answers *)

Lemma answered_result (w : world) (req : request) (r : reply) :
  answered w req r ->
  (provider req = js "ollama" ->
   result (Part000.POST w req) = Some (Part000.ollama_response r)) /\
  (provider req = js "gemini" ->
   result (Part000.POST w req) = Some (Part000.gemini_response r)).
Proof.
  intros (c & Hin & Hup).
  pose proof (resolve_input_no_model_fetch w req) as Hev.
  revert Hin. unfold Part000.POST.
  destruct (Part000.resolve_input w req) as [f h]. cbn [fst] in Hev.
  assert (Hf : In (ModelFetch c) f -> False).
  { intros Hin. apply Hev in Hin. discriminate. }
  assert (Hlast : forall c0, In (ModelFetch c) (f ++ [ModelFetch c0]) -> c0 = c).
  { intros c0 Hin. apply in_app_or in Hin as [Hin | [Heq | []]];
      [destruct (Hf Hin) | congruence]. }
  destruct (nonempty h); cbn [negb events result];
    [|intros Hin; destruct (Hf Hin)].
  destruct (str_eqb (provider req) (js "ollama")) eqn:Eo.
  - cbn [events result]. intros Hin. apply Hlast in Hin. rewrite Hin, Hup.
    apply str_eqb_eq in Eo. split; [reflexivity|].
    intros Hg. rewrite Hg in Eo. discriminate.
  - destruct (str_eqb (provider req) (js "gemini")) eqn:Eg;
      [|cbn [events]; intros Hin; destruct (Hf Hin)].
    destruct (Part000.gemini_key w req) as [k|];
      [|cbn [events]; intros Hin; destruct (Hf Hin)].
    destruct (nonempty k); [|cbn [events]; intros Hin; destruct (Hf Hin)].
    cbn [events result]. intros Hin. apply Hlast in Hin. rewrite Hin, Hup.
    split; [|reflexivity].
    intros Ho. rewrite Ho in Eo. discriminate.
Qed.


(** X5. When the Gemini call of part_000 succeeds and the text of the reply can
    be extracted, the handler answers 200 with the one record whose delta is
    [gemini ok], a line break and [empty text]. *)
Theorem gemini_document_gives_placeholder
        (w : world) (req : request) (r : reply) (t : jsstring) :
  provider req = js "gemini" -> answered w req r -> ok r = true ->
  Part000.gemini_extract (List.concat (chunks r)) = Some t ->
  result (Part000.POST w req) =
    Some {| status := 200; headers := content_text;
            body := [delta_line (JStr (js "[gemini ok]" ++ nl ++ js "[empty text]"))] |}.
Proof.
  intros Hp Ha Hok Hx. rewrite (proj2 (answered_result w req r Ha) Hp).
  unfold Part000.gemini_response, Part000.gemini_delta, Part000.gemini_text,
    reply_text.
  rewrite Hok, Hx. reflexivity.
Qed.


(** X7. The model name part_000 sends to the local model is never empty and
    never starts with gpt- or gemini; a non-empty requested name without
    such a prefix is sent unchanged. *)
Theorem ollama_model_never_foreign (req : request) :
  Part000.ollama_model req <> [] /\
  startsWith_ci (js "gpt-") (Part000.ollama_model req) = false /\
  startsWith_ci (js "gemini") (Part000.ollama_model req) = false /\
  (forall m, model req = Some m -> m <> [] ->
             Part000.foreign_model m = false ->
             Part000.ollama_model req = m).
Proof.
  assert (H : Part000.ollama_model req <> [] /\
              Part000.foreign_model (Part000.ollama_model req) = false).
  { unfold Part000.ollama_model.
    destruct (Part000.foreign_model (opt_or (model req) (js "deepseek-r1:14b")))
      eqn:E.
    - split; [discriminate | reflexivity].
    - split; [|exact E]. unfold opt_or, str_or.
      destruct (model req) as [[|c m]|]; discriminate. }
  destruct H as [Hne Hf]. apply orb_false_iff in Hf as [Hg Hm].
  repeat split; auto.
  intros m Hm' Hmne Hmf. unfold Part000.ollama_model.
  rewrite Hm'. unfold opt_or, str_or.
  apply nonempty_true in Hmne. rewrite Hmne, Hmf. reflexivity.
Qed.

(** X8. A run of part_000 does not depend on the process environment when the
    provider is ollama or the request carries a non-empty key. *)
Theorem request_key_hides_environment (w w' : world) (req : request) :
  same_but_env w w' ->
  provider req = js "ollama" \/ (exists k, key req = Some k /\ k <> []) ->
  Part000.POST w req = Part000.POST w' req.
Proof.
  intros (Hpage & Hup & Hload) H.
  assert (Hr : Part000.resolve_input w req = Part000.resolve_input w' req).
  { unfold Part000.resolve_input. destruct (url req) as [u|]; [|reflexivity].
    rewrite (Hpage u). reflexivity. }
  unfold Part000.POST. rewrite <- Hr.
  destruct (Part000.resolve_input w req) as [f h].
  destruct (nonempty h); cbn [negb]; [|reflexivity].
  rewrite (Hload h).
  destruct (str_eqb (provider req) (js "ollama")) eqn:Eo.
  - rewrite Hup. reflexivity.
  - destruct H as [Ho | (k & Hk & Hne)].
    + rewrite Ho in Eo. discriminate.
    + unfold Part000.gemini_key. rewrite Hk.
      apply nonempty_true in Hne. rewrite Hne, Hup. reflexivity.
Qed.

(** X9. The route never checks for a key: with markup to analyse and the
    environment variable unset, it still calls OpenAI with the header Bearer
    undefined, and Gemini with key=undefined in the address. *)
Theorem route_calls_without_key (w : world) (req : request) :
  snd (Route.resolve_input w req) <> [] ->
  (provider req = js "openai" ->
   env w (js "OPENAI_API_KEY") = None ->
   exists c, In (ModelFetch c) (events (Route.POST w req)) /\
             lookup (js "Authorization") (call_headers c) =
               Some (js "Bearer undefined")) /\
  (provider req = js "gemini" ->
   env w (js "GOOGLE_API_KEY") = None ->
   exists c, In (ModelFetch c) (events (Route.POST w req)) /\
             endpoint c =
               js "https://generativelanguage.googleapis.com/v1beta/models/gemini-1.5-flash-latest:streamGenerateContent?key=undefined").
Proof.
  intros Hne. unfold Route.POST.
  destruct (Route.resolve_input w req) as [f h]. cbn [snd] in Hne.
  apply nonempty_true in Hne. rewrite Hne. cbn [negb].
  split; intros Hp Henv; rewrite Hp.
  - change (str_eqb (js "openai") (js "ollama")) with false.
    change (str_eqb (js "openai") (js "openai")) with true.
    cbv beta iota. eexists. split.
    + cbn [events]. apply in_or_app. right. left. reflexivity.
    + unfold Route.openai_call, Route.env_text. cbn [call_headers].
      rewrite Henv. reflexivity.
  - change (str_eqb (js "gemini") (js "ollama")) with false.
    change (str_eqb (js "gemini") (js "openai")) with false.
    change (str_eqb (js "gemini") (js "gemini")) with true.
    cbv beta iota. eexists. split.
    + cbn [events]. apply in_or_app. right. left. reflexivity.
    + unfold Route.gemini_call, Route.env_text. cbn [endpoint].
      rewrite Henv. reflexivity.
Qed.

(** ** The read loops of the route *)

(** X10. The records the route writes for OpenAI depend only on the concatenation
    of the reads of the upstream body, not on where the reads are cut. *)
Theorem openai_reads_do_not_matter (cs cs' : list jsstring) :
  List.concat cs = List.concat cs' ->
  Route.openai_deltas cs = Route.openai_deltas cs'.
Proof.
  intros H. rewrite !openai_deltas_whole, H. reflexivity.
Qed.

Lemma done_frame : sse_frame (js "data: [DONE]") /\
                   Route.openai_event (js "data: [DONE]") = [].
Proof. split; [split; [reflexivity | discriminate] | reflexivity]. Qed.

Lemma openai_stream_deltas
        (frames : list jsstring) (vs : list json) (cs : list jsstring) :
  Forall2 openai_frame frames vs ->
  List.concat cs = framed (nl ++ nl) (frames ++ [js "data: [DONE]"]) ->
  Route.openai_deltas cs = vs.
Proof.
  intros Hf Hc. rewrite openai_deltas_whole, Hc, split_blank_framed.
  - rewrite removelast_last, flat_map_app. cbn [flat_map].
    rewrite (proj2 done_frame). cbn [app]. rewrite app_nil_r.
    apply (flat_map_frames _ _ _ _ _ openai_event_frame Hf).
  - apply Forall_app. split.
    + apply (Forall2_Forall_left _ _ _ _ _ _ (fun l v H => proj1 H) Hf).
    + constructor; [exact (proj1 done_frame) | constructor].
Qed.

(** X11. When the upstream body of OpenAI is a sequence of content frames
    followed by the [DONE] frame, each closed by a blank line, the route
    writes exactly the contents of the frames, in order, however the body is
    cut into reads. *)
Theorem openai_stream_rebuilt
        (frames : list jsstring) (vs : list json) (cs : list jsstring) :
  Forall2 openai_frame frames vs ->
  List.concat cs = framed (nl ++ nl) (frames ++ [js "data: [DONE]"]) ->
  Route.openai_deltas cs = vs.
Proof. apply openai_stream_deltas. Qed.

Lemma split_blank_none (f : jsstring) :
  includes (nl ++ nl) f = false -> split_blank f = [f].
Proof.
  induction f as [| | c d r E IH | c d r E IH] using split_blank_ind;
    intros Hi.
  - reflexivity.
  - reflexivity.
  - exfalso. apply andb_true_iff in E as [Ec Ed].
    apply N.eqb_eq in Ec, Ed. subst. discriminate Hi.
  - rewrite (split_blank_go c d r E), (IH (includes_cons_false _ _ _ Hi)).
    reflexivity.
Qed.

(** X12. Text after the last blank line of the OpenAI body is never processed:
    the route writes the contents of the closed frames only. *)
Theorem openai_open_frame_is_dropped
        (frames : list jsstring) (vs : list json) (tail : jsstring)
        (cs : list jsstring) :
  Forall2 openai_frame frames vs ->
  includes (nl ++ nl) tail = false ->
  List.concat cs = framed (nl ++ nl) frames ++ tail ->
  Route.openai_deltas cs = vs.
Proof.
  intros Hf Ht Hc.
  rewrite openai_deltas_whole, Hc, split_blank_app, split_blank_framed.
  - rewrite removelast_last, last_last. cbn [app].
    rewrite (split_blank_none tail Ht), removelast_last.
    apply (flat_map_frames _ _ _ _ _ openai_event_frame Hf).
  - apply (Forall2_Forall_left _ _ _ _ _ _ (fun l v H => proj1 H) Hf).
Qed.







(** X14. When every read of the local model's body is made of whole lines, the
    fragments written do not depend on how the lines are grouped into reads. *)
Theorem whole_lines_grouping_does_not_matter
        (groups groups' : list (list jsstring)) :
  Forall no_newline (List.concat groups) ->
  List.concat groups = List.concat groups' ->
  ollama_deltas (map (framed nl) groups) =
  ollama_deltas (map (framed nl) groups').
Proof.
  intros Hn He. rewrite !ollama_deltas_groups; [|rewrite <- He|]; try exact Hn.
  rewrite He. reflexivity.
Qed.

(** ** The signals *)

Lemma trimStart_split (s : jsstring) :
  exists a, s = a ++ trimStart s /\ all_space a.
Proof.
  induction s as [|c s (a & Ha & Hs)]; [exists []; split; [reflexivity | constructor]|].
  cbn [trimStart]. destruct (is_space c) eqn:E.
  - exists (c :: a). split; [cbn [app]; f_equal; exact Ha|].
    constructor; assumption.
  - exists []. split; [reflexivity | constructor].
Qed.

Lemma trimStart_head (s : jsstring) (c : N) (r : jsstring) :
  trimStart s = c :: r -> is_space c = false.
Proof.
  induction s as [|x s IH]; [discriminate|].
  cbn [trimStart]. destruct (is_space x) eqn:E; [exact IH|].
  intros H. injection H as <- _. exact E.
Qed.

Lemma trim_spec (s : jsstring) : trimmed_of s (trim s).
Proof.
  unfold trim.
  destruct (trimStart_split s) as (a & Ha & Hsa).
  destruct (trimStart_split (rev (trimStart s))) as (b & Hb & Hsb).
  set (u := trimStart (rev (trimStart s))) in *.
  assert (Ht : trimStart s = rev u ++ rev b).
  { rewrite <- (rev_involutive (trimStart s)), Hb, rev_app_distr. reflexivity. }
  split; [|split].
  - exists a, (rev b). split; [rewrite <- Ht; exact Ha|].
    split; [exact Hsa|]. apply Forall_rev. exact Hsb.
  - intros c r Hc. rewrite Hc in Ht. cbn [app] in Ht.
    exact (trimStart_head s c _ Ht).
  - intros r c Hc. apply (f_equal (@rev N)) in Hc.
    rewrite rev_involutive, rev_app_distr in Hc. cbn [rev app] in Hc.
    exact (trimStart_head _ c _ Hc).
Qed.

(** X15. The title and the primary call-to-action guess of both extractors are
    the text of the first match with the white space at both ends removed:
    they neither start nor end with white space. *)
Theorem title_and_guess_are_trimmed (d : document) :
  trimmed_of (text (first (select sel_title d))) (title (Part000.runRules d)) /\
  trimmed_of (text (first (select sel_cta d)))
    (primaryCtaGuess (Part000.runRules d)) /\
  trimmed_of (text (first (select sel_title d))) (title (Route.runRules d)) /\
  trimmed_of (text (first (select sel_cta d)))
    (primaryCtaGuess (Route.runRules d)).
Proof. repeat split; apply trim_spec. Qed.

Lemma filter_length_le (p q : node -> bool) (l : list node) :
  (forall e, p e = true -> q e = true) ->
  List.length (filter p l) <= List.length (filter q l).
Proof.
  intros H. induction l as [|e l IH]; [reflexivity|].
  cbn [filter]. destruct (p e) eqn:Ep.
  - rewrite (H e Ep). cbn [List.length]. lia.
  - destruct (q e); cbn [List.length]; lia.
Qed.

(** X16. The two extractors agree on every signal except the button count, and
    the route never counts more buttons than part_000. *)
Theorem extractors_differ_in_buttons_only (d : document) :
  title (Route.runRules d) = title (Part000.runRules d) /\
  hasViewport (Route.runRules d) = hasViewport (Part000.runRules d) /\
  forms (Route.runRules d) = forms (Part000.runRules d) /\
  inputs (Route.runRules d) = inputs (Part000.runRules d) /\
  labels (Route.runRules d) = labels (Part000.runRules d) /\
  primaryCtaGuess (Route.runRules d) = primaryCtaGuess (Part000.runRules d) /\
  hasInlineValidationHint (Route.runRules d) =
    hasInlineValidationHint (Part000.runRules d) /\
  hasProgress (Route.runRules d) = hasProgress (Part000.runRules d) /\
  buttons (Route.runRules d) <= buttons (Part000.runRules d).
Proof.
  repeat (split; [reflexivity|]).
  cbn [buttons Route.runRules Part000.runRules]. unfold select.
  apply filter_length_le. intros e He.
  unfold selector_matches in *.
  change Part000.sel_buttons
    with (Route.sel_buttons ++
          [[class_ "btn"]; [SAttr (js "data-testid") (AAny (js "button"))]]).
  rewrite existsb_app, He. reflexivity.
Qed.

Lemma cta_union (e : node) :
  selector_matches sel_cta e =
  existsb (fun c => c e) (map compound_matches sel_cta).
Proof. reflexivity. Qed.

Lemma no_candidate_no_selection (d : document) :
  cta_candidates d = [] -> select sel_cta d = [].
Proof.
  intros H. apply length_zero_iff_nil.
  rewrite (length_select sel_cta (map compound_matches sel_cta) d cta_union).
  unfold cta_candidates in H. rewrite H. reflexivity.
Qed.

(** ** The prompt *)

Lemma includes_startsWith (p s : jsstring) :
  startsWith p s = true -> includes p s = true.
Proof. intros H. destruct s; cbn [includes]; rewrite H; reflexivity. Qed.

Lemma includes_app_r (p a b : jsstring) :
  includes p b = true -> includes p (a ++ b) = true.
Proof.
  intros H. induction a as [|c a IH]; [exact H|].
  cbn [app includes]. rewrite IH. apply orb_true_r.
Qed.

Lemma includes_here (k g q r : jsstring) :
  includes (k ++ g ++ q) (k ++ g ++ q ++ r) = true.
Proof.
  apply includes_startsWith.
  replace (k ++ g ++ q ++ r) with ((k ++ g ++ q) ++ r)
    by (rewrite <- !app_assoc; reflexivity).
  apply startsWith_app.
Qed.

Ltac find_in_prompt :=
  repeat first [apply includes_here | apply includes_app_r].

Lemma prompt_includes (html : jsstring) (s : signals) :
  includes (js "- title: " ++ str_or (title s) (js "(none)") ++ nl)
    (Part000.buildPrompt html s) = true /\
  includes (jq "primaryCtaGuess: '"
            ++ str_or (primaryCtaGuess s) (js "(none)") ++ jq "'")
    (Part000.buildPrompt html s) = true /\
  includes (js "- title: " ++ str_or (title s) (js "(none)") ++ nl)
    (Route.buildPrompt html s) = true /\
  includes (jq "primaryCtaGuess: '"
            ++ str_or (primaryCtaGuess s) (js "(none)") ++ jq "'")
    (Route.buildPrompt html s) = true.
Proof.
  unfold Part000.buildPrompt, Route.buildPrompt.
  change (jq ", primaryCtaGuess: '") with (js ", " ++ jq "primaryCtaGuess: '").
  rewrite <- !(app_assoc (js ", ") (jq "primaryCtaGuess: '")).
  repeat split; find_in_prompt.
Qed.

(** X17. Both prompts contain the title line and the quoted call-to-action guess,
    with (none) in place of an empty value. *)
Theorem prompt_shows_title_and_guess (html : jsstring) (s : signals) :
  includes (js "- title: " ++ str_or (title s) (js "(none)") ++ nl)
    (Part000.buildPrompt html s) = true /\
  includes (jq "primaryCtaGuess: '"
            ++ str_or (primaryCtaGuess s) (js "(none)") ++ jq "'")
    (Part000.buildPrompt html s) = true /\
  includes (js "- title: " ++ str_or (title s) (js "(none)") ++ nl)
    (Route.buildPrompt html s) = true /\
  includes (jq "primaryCtaGuess: '"
            ++ str_or (primaryCtaGuess s) (js "(none)") ++ jq "'")
    (Route.buildPrompt html s) = true.
Proof. apply prompt_includes. Qed.

(** X18. When no element matches the call-to-action selector, the guess of both
    extractors is empty and both prompts show it as (none). *)
Theorem no_candidate_gives_none (d : document) (html : jsstring) :
  cta_candidates d = [] ->
  primaryCtaGuess (Part000.runRules d) = [] /\
  primaryCtaGuess (Route.runRules d) = [] /\
  includes (jq "primaryCtaGuess: '(none)'")
    (Part000.buildPrompt html (Part000.runRules d)) = true /\
  includes (jq "primaryCtaGuess: '(none)'")
    (Route.buildPrompt html (Route.runRules d)) = true.
Proof.
  intros H. apply no_candidate_no_selection in H.
  assert (Hp : primaryCtaGuess (Part000.runRules d) = [])
    by (cbn [primaryCtaGuess Part000.runRules]; rewrite H; reflexivity).
  assert (Hr : primaryCtaGuess (Route.runRules d) = [])
    by (cbn [primaryCtaGuess Route.runRules]; rewrite H; reflexivity).
  split; [exact Hp|]. split; [exact Hr|].
  pose proof (prompt_includes html (Part000.runRules d))
    as (_ & Gp & _ & _).
  pose proof (prompt_includes html (Route.runRules d))
    as (_ & _ & _ & Gr).
  rewrite Hp in Gp. rewrite Hr in Gr. split; [exact Gp | exact Gr].
Qed.

(** X19. Both prompts depend on the first 4000 code units of the markup only, and
    their length is that of the prompt for empty markup plus the smaller of
    4000 and the length of the markup. *)
Theorem prompt_markup_is_capped (html : jsstring) (s : signals) :
  Part000.buildPrompt html s = Part000.buildPrompt (firstn 4000 html) s /\
  Route.buildPrompt html s = Route.buildPrompt (firstn 4000 html) s /\
  List.length (Part000.buildPrompt html s) =
    List.length (Part000.buildPrompt [] s) + Nat.min 4000 (List.length html) /\
  List.length (Route.buildPrompt html s) =
    List.length (Route.buildPrompt [] s) + Nat.min 4000 (List.length html).
Proof.
  unfold Part000.buildPrompt, Route.buildPrompt, slice0.
  rewrite firstn_firstn, Nat.min_id.
  split; [reflexivity|]. split; [reflexivity|].
  rewrite !length_app, firstn_nil, length_firstn. cbn [List.length].
  split; lia.
Qed.

(** ** The page in front of the route *)

Lemma split_lines_single (l : jsstring) :
  no_newline l -> split_lines l = [l].
Proof.
  induction 1 as [|c l Hc _ IH]; [reflexivity|].
  cbn [split_lines]. unfold is_nl. apply N.eqb_neq in Hc.
  rewrite Hc, IH. reflexivity.
Qed.

Lemma read_chunk_error (msg : jsstring) :
  RoutePage.read_chunk (JSON_stringify (JObj [(js "error", JStr msg)])) = Some [].
Proof.
  unfold RoutePage.read_chunk.
  rewrite (split_lines_single _ (field_no_newline (js "error") msg)).
  rewrite (gather_nonempty _ _ read_line_empty).
  cbn [gather]. unfold RoutePage.read_line. rewrite JSON_parse_field.
  reflexivity.
Qed.

Lemma read_all_nothing (groups : list (list jsstring)) :
  List.concat groups = [] ->
  RoutePage.read_all (map (@List.concat N) groups) = Some [].
Proof.
  induction groups as [|g gs IH]; [reflexivity|].
  cbn [List.concat]. intros H. apply app_eq_nil in H as [-> H].
  unfold RoutePage.read_all in *. cbn [map gather List.concat].
  rewrite (IH H). reflexivity.
Qed.

Lemma read_all_single_write (b : jsstring) (reads : list jsstring) :
  regrouped [b] reads ->
  RoutePage.read_all reads = option_map (fun t => t ++ []) (RoutePage.read_chunk b).
Proof.
  intros (groups & Hg & ->).
  induction groups as [|g gs IH]; [discriminate|].
  cbn [List.concat] in Hg. destruct g as [|x g].
  - cbn [app] in Hg. unfold RoutePage.read_all in *. cbn [map gather List.concat].
    change (RoutePage.read_chunk []) with (Some (@nil N)).
    rewrite (IH Hg). destruct (RoutePage.read_chunk b); reflexivity.
  - injection Hg as -> Hg. apply app_eq_nil in Hg as [-> Hg].
    unfold RoutePage.read_all. cbn [map gather List.concat].
    fold (RoutePage.read_all (map (@List.concat N) gs)).
    rewrite (read_all_nothing gs Hg), !app_nil_r.
    destruct (RoutePage.read_chunk b); reflexivity.
Qed.

Lemma route_status_400 (w : world) (req : request) (resp : response) :
  result (Route.POST w req) = Some resp -> status resp = 400%N ->
  exists msg, resp = error_response msg.
Proof.
  unfold Route.POST.
  destruct (Route.resolve_input w req) as [f h].
  destruct (nonempty h); cbn [negb result];
    [|intros H _; injection H as <-; eauto].
  destruct (str_eqb (provider req) (js "ollama")).
  { cbn [result]. destruct (upstream w _); [|discriminate].
    intros H; injection H as <-. discriminate. }
  destruct (str_eqb (provider req) (js "openai")).
  { cbn [result]. destruct (upstream w _); [|discriminate].
    intros H; injection H as <-. discriminate. }
  destruct (str_eqb (provider req) (js "gemini")).
  { cbn [result]. destruct (upstream w _); [|discriminate].
    intros H; injection H as <-. discriminate. }
  cbn [result]. intros H _; injection H as <-; eauto.
Qed.

(** X20. The page bundled with the route shows nothing for an error response:
    when the route answers with status 400, the read loop adds nothing to
    the result. *)
Theorem route_page_shows_no_error
        (w : world) (sent : jsstring) (resp : response) (reads : list jsstring) :
  route_response w sent = Some resp -> status resp = 400%N ->
  regrouped (body resp) reads ->
  RoutePage.read_all reads = Some [].
Proof.
  unfold route_response. intros H Hs Hr.
  destruct (JSON_parse sent) as [v|]; [|discriminate].
  destruct (route_status_400 w _ resp H Hs) as (msg & ->).
  cbn [body error_response] in Hr.
  rewrite (read_all_single_write _ reads Hr), read_chunk_error. reflexivity.
Qed.

Lemma route_page_sends (w : world) (st : RoutePage.state) :
  snd (Route.resolve_input w (route_page_request st)) <> [] ->
  negb (nonempty (RoutePage.url st)) && negb (nonempty (RoutePage.htmlInput st)) = false.
Proof.
  unfold Route.resolve_input. cbn [url html route_page_request opt_or].
  destruct (RoutePage.url st) as [|c u]; [|reflexivity].
  destruct (RoutePage.htmlInput st) as [|c h]; [|reflexivity].
  intros H. exfalso. apply H. reflexivity.
Qed.

Lemma route_page_result_of_body
      (w : world) (api : jsstring -> list jsstring) (st : RoutePage.state)
      (resp : response) (texts : list jsstring) :
  snd (Route.resolve_input w (route_page_request st)) <> [] ->
  result (Route.POST w (route_page_request st)) = Some resp ->
  body resp = map (fun s => delta_line (JStr s)) texts ->
  (forall r, route_response w (RoutePage.request_body st) = Some r ->
             regrouped (body r) (api (RoutePage.request_body st))) ->
  RoutePage.handleAnalyze api st =
    Some {| RoutePage.url := RoutePage.url st;
            RoutePage.htmlInput := RoutePage.htmlInput st;
            RoutePage.provider := RoutePage.provider st;
            RoutePage.loading := false;
            RoutePage.result := List.concat texts |}.
Proof.
  intros Hm Hres Hb Hapi. unfold RoutePage.handleAnalyze.
  rewrite (route_page_sends w st Hm).
  rewrite (read_all_regrouped texts (api (RoutePage.request_body st))).
  - reflexivity.
  - rewrite <- Hb. apply Hapi. rewrite route_response_of_page. exact Hres.
Qed.

(** X21. Page and route together, provider ollama: when the local model replies
    in reads of whole lines carrying the string fragments texts,
    handleAnalyze ends with loading off and the concatenation of texts as
    result. *)
Theorem route_page_shows_local_answer
        (w : world) (api : jsstring -> list jsstring) (st : RoutePage.state)
        (markup : jsstring) (r : reply)
        (groups : list (list jsstring)) (texts : list jsstring) :
  RoutePage.provider st = js "ollama" ->
  snd (Route.resolve_input w (route_page_request st)) = markup ->
  markup <> [] ->
  upstream w (Route.ollama_call
                (Route.buildPrompt markup (Route.runRules (load w markup)))) =
    Some r ->
  chunks r = map (framed nl) groups ->
  Forall2 ollama_frame (List.concat groups) (map JStr texts) ->
  (forall resp, route_response w (RoutePage.request_body st) = Some resp ->
                regrouped (body resp) (api (RoutePage.request_body st))) ->
  RoutePage.handleAnalyze api st =
    Some {| RoutePage.url := RoutePage.url st;
            RoutePage.htmlInput := RoutePage.htmlInput st;
            RoutePage.provider := RoutePage.provider st;
            RoutePage.loading := false;
            RoutePage.result := List.concat texts |}.
Proof.
  intros Hp Hm Hne Hup Hch Hfr Hapi.
  apply (route_page_result_of_body w api st
           (Route.stream_response (ollama_deltas (chunks r)))).
  - rewrite Hm. exact Hne.
  - unfold Route.POST.
    destruct (Route.resolve_input w (route_page_request st)) as [f h].
    cbn [snd] in Hm. subst h. apply nonempty_true in Hne. rewrite Hne.
    cbn [negb provider route_page_request]. rewrite Hp.
    change (str_eqb (js "ollama") (js "ollama")) with true.
    cbv beta iota. cbn [result]. rewrite Hup. reflexivity.
  - cbn [body Route.stream_response]. rewrite Hch, ollama_deltas_groups.
    + rewrite (flat_map_frames _ _ _ _ _ ollama_line_frame Hfr), map_map.
      reflexivity.
    + apply (Forall2_Forall_left _ _ _ _ _ _ (fun l v H => proj1 H) Hfr).
  - exact Hapi.
Qed.

(** X22. Page and route together, provider openai: when the upstream body is the
    content frames of texts closed by the [DONE] frame, cut into reads
    anywhere, handleAnalyze ends with the concatenation of texts as result. *)
Theorem route_page_shows_chat_answer
        (w : world) (api : jsstring -> list jsstring) (st : RoutePage.state)
        (markup : jsstring) (r : reply)
        (frames : list jsstring) (texts : list jsstring) :
  RoutePage.provider st = js "openai" ->
  snd (Route.resolve_input w (route_page_request st)) = markup ->
  markup <> [] ->
  upstream w (Route.openai_call w
                (Route.buildPrompt markup (Route.runRules (load w markup)))) =
    Some r ->
  List.concat (chunks r) =
    framed (nl ++ nl) (frames ++ [js "data: [DONE]"]) ->
  Forall2 openai_frame frames (map JStr texts) ->
  (forall resp, route_response w (RoutePage.request_body st) = Some resp ->
                regrouped (body resp) (api (RoutePage.request_body st))) ->
  RoutePage.handleAnalyze api st =
    Some {| RoutePage.url := RoutePage.url st;
            RoutePage.htmlInput := RoutePage.htmlInput st;
            RoutePage.provider := RoutePage.provider st;
            RoutePage.loading := false;
            RoutePage.result := List.concat texts |}.
Proof.
  intros Hp Hm Hne Hup Hch Hfr Hapi.
  apply (route_page_result_of_body w api st
           (Route.stream_response (Route.openai_deltas (chunks r)))).
  - rewrite Hm. exact Hne.
  - unfold Route.POST.
    destruct (Route.resolve_input w (route_page_request st)) as [f h].
    cbn [snd] in Hm. subst h. apply nonempty_true in Hne. rewrite Hne.
    cbn [negb provider route_page_request]. rewrite Hp.
    change (str_eqb (js "openai") (js "ollama")) with false.
    change (str_eqb (js "openai") (js "openai")) with true.
    cbv beta iota. cbn [result]. rewrite Hup. reflexivity.
  - cbn [body Route.stream_response].
    rewrite (openai_stream_deltas frames (map JStr texts) (chunks r) Hfr Hch).
    rewrite map_map. reflexivity.
  - exact Hapi.
Qed.

(** ** Worked cases *)

Lemma regrouped_refl (l : list jsstring) : regrouped l l.
Proof.
  exists (map (fun x => [x]) l). split.
  - induction l as [|x l IH]; [reflexivity|]. cbn [map List.concat app].
    rewrite IH. reflexivity.
  - induction l as [|x l IH]; [reflexivity|]. cbn [map List.concat].
    rewrite app_nil_r, <- IH. reflexivity.
Qed.

Lemma direct_api_regrouped (w : world) (sent : jsstring) (resp : response) :
  route_response w sent = Some resp ->
  regrouped (body resp) (direct_api w sent).
Proof. intros H. unfold direct_api. rewrite H. apply regrouped_refl. Qed.

Lemma route_page_rebuilds_answer_witness :
  RoutePage.read_all [delta_line (JStr (js "Hel")) ++ delta_line (JStr (js "lo"))] =
  Some (List.concat [js "Hel"; js "lo"]).
Proof.
  apply route_page_rebuilds_answer.
  exists [[delta_line (JStr (js "Hel")); delta_line (JStr (js "lo"))]].
  split; [reflexivity|]. cbn [map List.concat]. rewrite app_nil_r. reflexivity.
Defined.

Lemma route_page_shows_local_answer_witness :
  RoutePage.handleAnalyze (direct_api world_lines) (route_page_state html_shop "ollama") =
    Some {| RoutePage.url := []; RoutePage.htmlInput := html_shop;
            RoutePage.provider := js "ollama"; RoutePage.loading := false;
            RoutePage.result := List.concat [js "Hel"; js "lo"] |}.
Proof.
  apply (route_page_shows_local_answer world_lines (direct_api world_lines)
           (route_page_state html_shop "ollama") html_shop reply_lines
           [[line_hel]; [line_lo]] [js "Hel"; js "lo"]).
  - reflexivity.
  - reflexivity.
  - discriminate.
  - reflexivity.
  - reflexivity.
  - repeat constructor; unfold ollama_frame; frame_facts.
  - apply direct_api_regrouped.
Defined.

Lemma route_page_shows_chat_answer_witness :
  RoutePage.handleAnalyze (direct_api world_sse) (route_page_state html_shop "openai") =
    Some {| RoutePage.url := []; RoutePage.htmlInput := html_shop;
            RoutePage.provider := js "openai"; RoutePage.loading := false;
            RoutePage.result := List.concat [js "Hel"; js "lo"] |}.
Proof.
  apply (route_page_shows_chat_answer world_sse (direct_api world_sse)
           (route_page_state html_shop "openai") html_shop reply_sse
           [sse_hel; sse_lo] [js "Hel"; js "lo"]).
  - reflexivity.
  - reflexivity.
  - discriminate.
  - reflexivity.
  - vm_compute. reflexivity.
  - repeat constructor; unfold openai_frame; frame_facts.
  - apply direct_api_regrouped.
Defined.

Lemma route_page_shows_no_error_witness :
  RoutePage.read_all
    (direct_api world_shop (RoutePage.request_body (route_page_state html_shop "mistral"))) =
    Some [].
Proof.
  apply (route_page_shows_no_error world_shop
           (RoutePage.request_body (route_page_state html_shop "mistral"))
           (error_response (js "Unknown provider"))).
  - rewrite route_response_of_page. reflexivity.
  - reflexivity.
  - apply direct_api_regrouped. rewrite route_response_of_page. reflexivity.
Defined.

(** X23. Page and route together: a url that does not start with http, with no
    markup typed in, is answered with the error No URL/HTML provided., no
    fetch is made, and the page ends with an empty result. *)
Theorem url_without_scheme_shows_nothing
        (w : world) (api : jsstring -> list jsstring) (st : RoutePage.state) :
  RoutePage.htmlInput st = [] ->
  RoutePage.url st <> [] ->
  startsWith (js "http") (RoutePage.url st) = false ->
  (forall resp, route_response w (RoutePage.request_body st) = Some resp ->
                regrouped (body resp) (api (RoutePage.request_body st))) ->
  route_response w (RoutePage.request_body st) =
    Some (error_response (js "No URL/HTML provided.")) /\
  events (Route.POST w (route_page_request st)) = [] /\
  RoutePage.handleAnalyze api st =
    Some {| RoutePage.url := RoutePage.url st;
            RoutePage.htmlInput := RoutePage.htmlInput st;
            RoutePage.provider := RoutePage.provider st;
            RoutePage.loading := false;
            RoutePage.result := [] |}.
Proof.
  intros Hh Hu Hs Hapi.
  assert (Hr : Route.resolve_input w (route_page_request st) = ([], [])).
  { unfold Route.resolve_input. cbn [url html route_page_request].
    rewrite Hs, Hh, andb_false_r. reflexivity. }
  assert (Hres : route_response w (RoutePage.request_body st) =
                 Some (error_response (js "No URL/HTML provided."))).
  { rewrite route_response_of_page. unfold Route.POST. rewrite Hr. reflexivity. }
  split; [exact Hres|]. split.
  - unfold Route.POST. rewrite Hr. reflexivity.
  - unfold RoutePage.handleAnalyze. apply nonempty_true in Hu. rewrite Hu.
    cbn [negb andb].
    rewrite (read_all_single_write _ _ (Hapi _ Hres)), read_chunk_error.
    reflexivity.
Qed.

Lemma url_without_scheme_shows_nothing_witness :
  route_response world_shop (RoutePage.request_body route_page_bare_url) =
    Some (error_response (js "No URL/HTML provided.")) /\
  events (Route.POST world_shop (route_page_request route_page_bare_url)) = [] /\
  RoutePage.handleAnalyze (direct_api world_shop) route_page_bare_url =
    Some {| RoutePage.url := js "example.com"; RoutePage.htmlInput := [];
            RoutePage.provider := js "ollama"; RoutePage.loading := false;
            RoutePage.result := [] |}.
Proof.
  apply url_without_scheme_shows_nothing.
  - reflexivity.
  - discriminate.
  - reflexivity.
  - apply direct_api_regrouped.
Defined.

(** X24. A response of the route is either 400 with the JSON content type and no
    provider called, or 200 with the chunked plain-text headers and a
    provider called. *)
Theorem route_status_tells_call
        (w : world) (req : request) (resp : response) :
  result (Route.POST w req) = Some resp ->
  (status resp = 400%N /\ headers resp = content_json /\
   forall e, In e (events (Route.POST w req)) -> is_model_fetch e = false) \/
  (status resp = 200%N /\ headers resp = content_chunked /\
   exists c, In (ModelFetch c) (events (Route.POST w req))).
Proof.
  assert (Hev : forall e, In e (fst (Route.resolve_input w req)) ->
                          is_model_fetch e = false).
  { intros e. destruct (route_resolve_input_events w req)
      as [-> | (u & _ & _ & ->)]; [intros [] | intros [<- | []]; reflexivity]. }
  unfold Route.POST.
  destruct (Route.resolve_input w req) as [f h]. cbn [fst] in Hev.
  destruct (nonempty h); cbn [negb result events];
    [|intros H; injection H as <-; left; auto].
  destruct (str_eqb (provider req) (js "ollama")).
  { cbn [result events]. destruct (upstream w _); [|discriminate].
    intros H; injection H as <-. right. repeat split.
    eexists. apply in_or_app. right. left. reflexivity. }
  destruct (str_eqb (provider req) (js "openai")).
  { cbn [result events]. destruct (upstream w _); [|discriminate].
    intros H; injection H as <-. right. repeat split.
    eexists. apply in_or_app. right. left. reflexivity. }
  destruct (str_eqb (provider req) (js "gemini")).
  { cbn [result events]. destruct (upstream w _); [|discriminate].
    intros H; injection H as <-. right. repeat split.
    eexists. apply in_or_app. right. left. reflexivity. }
  cbn [result events]. intros H; injection H as <-; left; auto.
Qed.

Lemma route_status_tells_call_witness :
  (status (error_response (js "Unknown provider")) = 400%N /\
   headers (error_response (js "Unknown provider")) = content_json /\
   forall e, In e (events (Route.POST world_shop (route_page_request (route_page_state html_shop "mistral")))) ->
             is_model_fetch e = false) \/
  (status (error_response (js "Unknown provider")) = 200%N /\
   headers (error_response (js "Unknown provider")) = content_chunked /\
   exists c, In (ModelFetch c)
               (events (Route.POST world_shop (route_page_request (route_page_state html_shop "mistral"))))).
Proof. apply route_status_tells_call. reflexivity. Defined.


Lemma gemini_document_gives_placeholder_witness :
  Part000.gemini_extract (List.concat (chunks reply_hi)) = Some (js "Hi") /\
  result (Part000.POST (world_of None (Some reply_hi) dom_shop) req_gemini) =
    Some {| status := 200; headers := content_text;
            body := [delta_line (JStr (js "[gemini ok]" ++ nl ++ js "[empty text]"))] |}.
Proof.
  split; [vm_compute; reflexivity|].
  apply (gemini_document_gives_placeholder
           (world_of None (Some reply_hi) dom_shop) req_gemini reply_hi (js "Hi")).
  - reflexivity.
  - eexists. split; [left; reflexivity | reflexivity].
  - reflexivity.
  - vm_compute. reflexivity.
Defined.


Lemma openai_reads_do_not_matter_witness :
  Route.openai_deltas sse_chunks =
  Route.openai_deltas [List.concat sse_chunks].
Proof.
  apply openai_reads_do_not_matter.
  cbn [List.concat]. rewrite !app_nil_r. reflexivity.
Defined.

Lemma openai_stream_rebuilt_witness :
  Route.openai_deltas (chunks reply_sse) = [JStr (js "Hel"); JStr (js "lo")].
Proof.
  apply (openai_stream_rebuilt [sse_hel; sse_lo]).
  - repeat constructor; unfold openai_frame; frame_facts.
  - vm_compute. reflexivity.
Defined.

Lemma openai_open_frame_is_dropped_witness :
  openai_frame sse_lo (JStr (js "lo")) /\
  Route.openai_deltas [sse_hel ++ nl; nl ++ sse_lo] = [JStr (js "Hel")].
Proof.
  split; [unfold openai_frame; frame_facts|].
  apply (openai_open_frame_is_dropped [sse_hel] [JStr (js "Hel")] sse_lo).
  - repeat constructor; unfold openai_frame; frame_facts.
  - reflexivity.
  - vm_compute. reflexivity.
Defined.


Lemma no_candidate_gives_none_witness :
  primaryCtaGuess (Part000.runRules dom_plain) = [] /\
  primaryCtaGuess (Route.runRules dom_plain) = [] /\
  includes (jq "primaryCtaGuess: '(none)'")
    (Part000.buildPrompt html_shop (Part000.runRules dom_plain)) = true /\
  includes (jq "primaryCtaGuess: '(none)'")
    (Route.buildPrompt html_shop (Route.runRules dom_plain)) = true.
Proof. apply no_candidate_gives_none. reflexivity. Defined.

Lemma request_key_hides_environment_witness :
  Part000.POST (world_of None (Some reply_hi) dom_shop) req_gemini =
  Part000.POST (world_with_key (Some reply_hi)) req_gemini.
Proof.
  apply request_key_hides_environment.
  - repeat split.
  - right. exists (js "K"). split; [reflexivity | discriminate].
Defined.

Lemma route_calls_without_key_witness :
  (provider req_openai = js "openai" ->
   env world_shop (js "OPENAI_API_KEY") = None ->
   exists c, In (ModelFetch c) (events (Route.POST world_shop req_openai)) /\
             lookup (js "Authorization") (call_headers c) =
               Some (js "Bearer undefined")) /\
  (provider req_openai = js "gemini" ->
   env world_shop (js "GOOGLE_API_KEY") = None ->
   exists c, In (ModelFetch c) (events (Route.POST world_shop req_openai)) /\
             endpoint c =
               js "https://generativelanguage.googleapis.com/v1beta/models/gemini-1.5-flash-latest:streamGenerateContent?key=undefined").
Proof. apply route_calls_without_key. discriminate. Defined.

Lemma whole_lines_grouping_does_not_matter_witness :
  ollama_deltas (map (framed nl) [[line_hel]; [line_lo]]) =
  ollama_deltas (map (framed nl) [[line_hel; line_lo]]).
Proof.
  apply whole_lines_grouping_does_not_matter; [|reflexivity].
  cbn [List.concat app].
  constructor; [apply no_newline_check; reflexivity|].
  constructor; [apply no_newline_check; reflexivity | constructor].
Defined.


(** ** [stripCodeFences] *)

Lemma includes_cons_other (c : N) (o : jsstring) :
  c <> 96%N -> includes Page.fence (c :: o) = includes Page.fence o.
Proof.
  intros H. cbn [includes startsWith Page.fence].
  apply N.eqb_neq in H. rewrite N.eqb_sym in H. rewrite H. reflexivity.
Qed.

Lemma includes_held (st : Page.fence_state) (c : N) (o : jsstring) :
  c <> 96%N ->
  includes Page.fence (Page.held st ++ c :: o) = includes Page.fence o.
Proof.
  intros H. pose proof (includes_cons_other c o H) as Hc.
  apply N.eqb_neq in H. rewrite N.eqb_sym in H.
  destruct st; cbn [Page.held app]; try exact Hc.
  - cbn [includes startsWith Page.fence] in *. rewrite H in *. cbn [andb orb] in *.
    exact Hc.
  - cbn [includes startsWith Page.fence] in *. rewrite H in *. cbn [andb orb] in *.
    exact Hc.
Qed.

Lemma strip_no_fence (tag : bool) (s : jsstring) :
  forall st, includes Page.fence (Page.strip tag st s) = false.
Proof.
  induction s as [|c r IH]; intros st.
  - destruct st; reflexivity.
  - cbn [Page.strip]. destruct (N.eqb c 96) eqn:E.
    + destruct st; apply IH.
    + apply N.eqb_neq in E. destruct st;
        try (rewrite (includes_held _ c _ E); apply IH).
      destruct (Page.is_tag_unit c); [apply IH|].
      destruct (is_space c); [apply IH|].
      rewrite (includes_cons_other c _ E). apply IH.
Qed.

(** Text that holds no Page.fence goes through a replace unchanged. *)
Lemma strip_fence_free (tag : bool) (s : jsstring) :
  forall st, st <> Page.FWord ->
             includes Page.fence (Page.held st ++ s) = false ->
             Page.strip tag st s = Page.held st ++ s.
Proof.
  induction s as [|c r IH]; intros st Hst Hi.
  - cbn [Page.strip]. rewrite app_nil_r. reflexivity.
  - cbn [Page.strip]. destruct (N.eqb c 96) eqn:E.
    + apply N.eqb_eq in E. subst c. destruct st; try congruence.
      * apply (IH Page.FOne); [discriminate | exact Hi].
      * apply (IH Page.FTwo); [discriminate | exact Hi].
      * discriminate Hi.
    + apply N.eqb_neq in E. rewrite (includes_held st c r E) in Hi.
      destruct st; try congruence;
        rewrite (IH Page.FNone) by (try discriminate; exact Hi); reflexivity.
Qed.

Lemma stripCodeFences_once (s : jsstring) :
  Page.stripCodeFences s = Page.strip true Page.FNone s.
Proof.
  unfold Page.stripCodeFences.
  apply (strip_fence_free false _ Page.FNone); [discriminate|].
  apply strip_no_fence.
Qed.

(** X25. stripCodeFences leaves no run of three backticks in its output, is
    idempotent, and returns a text without such a run unchanged. *)
Theorem stripCodeFences_leaves_no_fence (s : jsstring) :
  includes (js "```") (Page.stripCodeFences s) = false /\
  Page.stripCodeFences (Page.stripCodeFences s) = Page.stripCodeFences s /\
  (includes (js "```") s = false -> Page.stripCodeFences s = s).
Proof.
  change (js "```") with Page.fence.
  assert (Hfree : forall t, includes Page.fence t = false ->
                            Page.stripCodeFences t = t).
  { intros t Ht. rewrite stripCodeFences_once.
    apply (strip_fence_free true t Page.FNone); [discriminate | exact Ht]. }
  assert (Hno : includes Page.fence (Page.stripCodeFences s) = false).
  { rewrite stripCodeFences_once. apply strip_no_fence. }
  split; [exact Hno|]. split; [apply Hfree; exact Hno | apply Hfree].
Qed.

(** ** The page reads what the handler writes *)

Lemma flat_map_nonempty_units (f : jsstring -> jsstring) (ls : list jsstring) :
  f [] = [] -> flat_map f (filter_nonempty ls) = flat_map f ls.
Proof.
  intros Hf. induction ls as [|l ls IH]; [reflexivity|].
  destruct l as [|c l]; simpl.
  - rewrite Hf. exact IH.
  - f_equal. exact IH.
Qed.

Lemma page_reads_record_line (s : jsstring) :
  Page.read_line (JSON_stringify (JObj [(js "delta", JStr s)])) =
  Page.stripCodeFences s.
Proof.
  unfold Page.read_line. rewrite JSON_parse_field. reflexivity.
Qed.

Lemma page_read_chunk_records (ss : list jsstring) :
  Page.read_chunk (List.concat (map (fun s => delta_line (JStr s)) ss)) =
  flat_map Page.stripCodeFences ss.
Proof.
  unfold Page.read_chunk.
  change (List.concat (map (fun s => delta_line (JStr s)) ss))
    with (List.concat
            (map (fun s => JSON_stringify (JObj [(js "delta", JStr s)]) ++ nl) ss)).
  rewrite <- (map_map (fun s => JSON_stringify (JObj [(js "delta", JStr s)]))
                (fun f => f ++ nl)).
  change (List.concat (map (fun f => f ++ nl) ?l)) with (framed nl l).
  rewrite split_lines_framed.
  - rewrite flat_map_nonempty_units by reflexivity.
    rewrite flat_map_app. cbn [flat_map]. 
    change (Page.read_line []) with (@nil N). rewrite !app_nil_r.
    induction ss as [|s ss IH]; [reflexivity|].
    cbn [map flat_map]. rewrite page_reads_record_line, IH. reflexivity.
  - apply Forall_forall. intros l Hl.
    apply in_map_iff in Hl as (s & <- & _). apply field_no_newline.
Qed.

Lemma page_read_all_regrouped (ss : list jsstring) (rs : list jsstring) :
  regrouped (map (fun s => delta_line (JStr s)) ss) rs ->
  Page.read_all rs = flat_map Page.stripCodeFences ss.
Proof.
  intros (groups & Hg & ->). revert ss Hg.
  induction groups as [|g gs IH]; intros ss Hg.
  - destruct ss; [reflexivity | discriminate].
  - cbn [List.concat] in Hg. symmetry in Hg.
    apply map_eq_app in Hg as (ss1 & ss2 & -> & Hg1 & Hg2).
    unfold Page.read_all in *. cbn [map flat_map].
    rewrite <- Hg1, page_read_chunk_records, (IH ss2) by (symmetry; exact Hg2).
    rewrite flat_map_app. reflexivity.
Qed.

Lemma regrouped_concat (l rs : list jsstring) :
  regrouped l rs -> List.concat rs = List.concat l.
Proof.
  intros (groups & <- & ->).
  induction groups as [|g gs IH]; [reflexivity|].
  cbn [map List.concat]. rewrite concat_app, IH. reflexivity.
Qed.

(** ** The request of the page *)

Lemma page_stringify_request (st : Page.state) :
  Page.request_body st =
  js "{" ++ quote (js "url") ++ js ":" ++ quote (Page.url st) ++ js ","
    ++ quote (js "html") ++ js ":" ++ quote (Page.htmlInput st) ++ js ","
    ++ quote (js "provider") ++ js ":" ++ quote (Page.provider st) ++ js ","
    ++ quote (js "key") ++ js ":" ++ quote (Page.apiKey st) ++ js ","
    ++ quote (js "model") ++ js ":" ++ quote (Page.model st) ++ js "}".
Proof.
  unfold Page.request_body, Page.request_json.
  cbn [JSON_stringify map fst snd].
  change (own_props ?l) with l.
  cbn [map join fst snd]. rewrite <- !app_assoc. reflexivity.
Qed.

Ltac lex_member :=
  rewrite lex_quote;
  change (js ":" ++ ?r) with (58%N :: r);
  rewrite (lex_punct 58 TColon) by reflexivity;
  rewrite lex_quote.

Ltac lex_comma :=
  change (js "," ++ ?r) with (44%N :: r);
  rewrite (lex_punct 44 TComma) by reflexivity.

Lemma page_JSON_parse_request (st : Page.state) :
  JSON_parse (Page.request_body st) = Some (Page.request_json st).
Proof.
  rewrite page_stringify_request. unfold JSON_parse.
  change (js "{" ++ ?r) with (123%N :: r).
  rewrite (lex_punct 123 TLBrace) by reflexivity.
  lex_member. lex_comma. lex_member. lex_comma. lex_member. lex_comma.
  lex_member. lex_comma. lex_member.
  reflexivity.
Qed.

Lemma page_decode_request (st : Page.state) :
  decode_request (Page.request_json st) = page_request st.
Proof. reflexivity. Qed.

(** ** The page in front of the handler of part_000 *)

Lemma part000_serves_page (w : world) (st : Page.state) (f : fetched) :
  part000_serves w (Page.request_body st) f ->
  exists resp phrase rs,
    result (Part000.POST w (page_request st)) = Some resp /\
    regrouped (body resp) rs /\
    f = Arrived {| got_status := status resp;
                   got_statusText := phrase;
                   got_body := Some {| reads := rs; broken := None |} |}.
Proof.
  intros (v & resp & phrase & rs & Hv & Hr & Hg & ->).
  rewrite page_JSON_parse_request in Hv. injection Hv as <-.
  rewrite page_decode_request in Hr.
  exists resp, phrase, rs. auto.
Qed.

Lemma page_sends (w : world) (st : Page.state) :
  snd (Part000.resolve_input w (page_request st)) <> [] ->
  negb (nonempty (Page.url st)) && negb (nonempty (Page.htmlInput st)) = false.
Proof.
  unfold Part000.resolve_input. cbn [url html page_request opt_or].
  destruct (Page.url st) as [|c u]; [|reflexivity].
  destruct (Page.htmlInput st) as [|c h]; [|reflexivity].
  intros H. exfalso. apply H. reflexivity.
Qed.

Lemma answered_markup (w : world) (req : request) (r : reply) :
  answered w req r -> snd (Part000.resolve_input w req) <> [].
Proof.
  intros (c & Hin & _) He.
  pose proof (resolve_input_no_model_fetch w req) as Hev.
  revert Hin. unfold Part000.POST.
  destruct (Part000.resolve_input w req) as [f h]. cbn [fst snd] in *.
  subst h. cbn [nonempty negb events].
  intros Hin. apply Hev in Hin. discriminate.
Qed.

Lemma page_guard (st : Page.state) :
  Page.url st <> [] \/ Page.htmlInput st <> [] ->
  negb (nonempty (Page.url st)) && negb (nonempty (Page.htmlInput st)) = false.
Proof.
  destruct (Page.url st) as [|c u]; [|reflexivity].
  destruct (Page.htmlInput st) as [|c h]; [|reflexivity].
  intros [H | H]; destruct (H eq_refl).
Qed.

(** The page after a response of the handler, by the status. *)
Lemma page_after_response
      (w : world) (api : jsstring -> fetched) (st : Page.state) (resp : response) :
  negb (nonempty (Page.url st)) && negb (nonempty (Page.htmlInput st)) = false ->
  result (Part000.POST w (page_request st)) = Some resp ->
  part000_serves w (Page.request_body st) (api (Page.request_body st)) ->
  exists phrase rs,
    regrouped (body resp) rs /\
    let st1 := Page.with_status
                 (js "HTTP " ++ of_nat (N.to_nat (status resp)) ++ js " " ++ phrase)
                 (Page.started st) in
    Page.handleAnalyze api st =
      if ((200 <=? status resp) && (status resp <=? 299))%N
      then Page.with_result (Page.read_all rs) st1
      else Page.with_error (Page.error_message (List.concat (body resp))) st1.
Proof.
  intros Hg Hres Hs.
  apply part000_serves_page in Hs as (resp' & phrase & rs & Hres' & Hrg & Hf).
  rewrite Hres in Hres'. injection Hres' as <-.
  exists phrase, rs. split; [exact Hrg|].
  cbv zeta. unfold Page.handleAnalyze. rewrite Hg, Hf.
  unfold got_ok, got_text, Page.status_line.
  cbn [got_status got_statusText got_body reads broken].
  rewrite (regrouped_concat _ _ Hrg).
  destruct ((200 <=? status resp) && (status resp <=? 299))%N; reflexivity.
Qed.

Lemma error_message_of_error (msg : jsstring) :
  msg <> [] ->
  Page.error_message
    (List.concat (body (error_response msg))) = JStr msg.
Proof.
  intros Hm. cbn [body error_response List.concat]. rewrite app_nil_r.
  unfold Page.error_message. rewrite JSON_parse_field.
  cbn [get_field]. change (get_field (js "error") (JObj [(js "error", JStr msg)]))
    with (Some (JStr msg)).
  cbn [truthy]. destruct msg; [destruct (Hm eq_refl) | reflexivity].
Qed.

Lemma page_after_error
      (w : world) (api : jsstring -> fetched) (st : Page.state) (msg : jsstring) :
  msg <> [] ->
  Page.url st <> [] \/ Page.htmlInput st <> [] ->
  result (Part000.POST w (page_request st)) = Some (error_response msg) ->
  part000_serves w (Page.request_body st) (api (Page.request_body st)) ->
  exists phrase,
    Page.handleAnalyze api st =
      Page.with_error (JStr msg)
        (Page.with_status (js "HTTP 400 " ++ phrase) (Page.started st)).
Proof.
  intros Hm Hg Hres Hs.
  destruct (page_after_response w api st _ (page_guard st Hg) Hres Hs)
    as (phrase & rs & _ & Hh).
  exists phrase. cbv zeta in Hh. rewrite Hh.
  rewrite (error_message_of_error msg Hm). reflexivity.
Qed.

(** X26. The request body either page sends parses back, on the side of the
    handler, to the request with the fields of the page state, whatever
    characters the fields contain. *)
Theorem request_round_trip :
  (forall st : RoutePage.state,
      option_map decode_request (JSON_parse (RoutePage.request_body st)) =
        Some (route_page_request st)) /\
  (forall st : Page.state,
      option_map decode_request (JSON_parse (Page.request_body st)) =
        Some (page_request st)).
Proof.
  split; intros st.
  - rewrite JSON_parse_request. reflexivity.
  - rewrite page_JSON_parse_request. reflexivity.
Qed.

(** X27. Page and part_000 together: when the handler finds no markup, an unknown
    provider, or no Gemini key, the page ends with the handler's message as
    error text, the status line HTTP 400, an empty result and loading off. *)
Theorem page_shows_input_error
        (w : world) (api : jsstring -> fetched) (st : Page.state) :
  Page.url st <> [] \/ Page.htmlInput st <> [] ->
  part000_serves w (Page.request_body st) (api (Page.request_body st)) ->
  (snd (Part000.resolve_input w (page_request st)) = [] ->
   page_error_400 st "No URL/HTML provided." (Page.handleAnalyze api st)) /\
  (snd (Part000.resolve_input w (page_request st)) <> [] ->
   Page.provider st = js "gemini" -> Page.apiKey st = [] ->
   env w (js "GOOGLE_API_KEY") = None \/ env w (js "GOOGLE_API_KEY") = Some [] ->
   page_error_400 st "Missing Google API key." (Page.handleAnalyze api st)) /\
  (snd (Part000.resolve_input w (page_request st)) <> [] ->
   Page.provider st <> js "ollama" -> Page.provider st <> js "gemini" ->
   page_error_400 st "Unknown provider" (Page.handleAnalyze api st)).
Proof.
  intros Hg Hs. unfold page_error_400.
  assert (Hne : forall h, h <> [] -> negb (nonempty h) = false).
  { intros [|c h] H; [destruct (H eq_refl) | reflexivity]. }
  split; [|split].
  - intros Hm. apply (page_after_error w api st (js "No URL/HTML provided.")
             ltac:(vm_compute; discriminate) Hg); [|exact Hs].
    unfold Part000.POST.
    destruct (Part000.resolve_input w (page_request st)) as [f h].
    cbn [snd] in Hm. subst h. reflexivity.
  - intros Hm Hp Hk He.
    apply (page_after_error w api st (js "Missing Google API key.")
             ltac:(vm_compute; discriminate) Hg); [|exact Hs].
    unfold Part000.POST.
    destruct (Part000.resolve_input w (page_request st)) as [f h].
    cbn [snd] in Hm. rewrite (Hne h Hm).
    cbn [provider page_request]. rewrite Hp.
    change (str_eqb (js "gemini") (js "ollama")) with false.
    change (str_eqb (js "gemini") (js "gemini")) with true.
    cbv beta iota.
    unfold Part000.gemini_key. cbn [key page_request]. rewrite Hk.
    cbn [nonempty].
    destruct He as [-> | ->]; reflexivity.
  - intros Hm Ho Hgm.
    apply (page_after_error w api st (js "Unknown provider")
             ltac:(vm_compute; discriminate) Hg); [|exact Hs].
    unfold Part000.POST.
    destruct (Part000.resolve_input w (page_request st)) as [f h].
    cbn [snd] in Hm. rewrite (Hne h Hm).
    cbn [provider page_request].
    destruct (str_eqb (Page.provider st) (js "ollama")) eqn:Eo;
      [apply str_eqb_eq in Eo; destruct (Ho Eo)|].
    destruct (str_eqb (Page.provider st) (js "gemini")) eqn:Eg;
      [apply str_eqb_eq in Eg; destruct (Hgm Eg)|].
    reflexivity.
Qed.


(** X29. Page and part_000 together, provider gemini: after a successful upstream
    reply the result is the record's delta with its code fences stripped,
    and it is the placeholder [gemini ok], line break, [empty text] whenever
    the text of the reply can be extracted. *)
Theorem page_shows_gemini_placeholder
        (w : world) (api : jsstring -> fetched) (st : Page.state) (r : reply) :
  Page.provider st = js "gemini" ->
  answered w (page_request st) r -> ok r = true ->
  part000_serves w (Page.request_body st) (api (Page.request_body st)) ->
  exists phrase,
    Page.handleAnalyze api st =
      Page.with_result
        (Page.stripCodeFences (Part000.gemini_delta (reply_text r)))
        (Page.with_status (js "HTTP 200 " ++ phrase) (Page.started st)) /\
    forall t,
      Part000.gemini_extract (reply_text r) = Some t ->
      Page.result (Page.handleAnalyze api st) =
        js "[gemini ok]" ++ nl ++ js "[empty text]".
Proof.
  intros Hp Ha Hok Hs.
  pose proof (proj2 (answered_result w _ r Ha) Hp) as Hres.
  unfold Part000.gemini_response in Hres. rewrite Hok in Hres.
  cbn [negb] in Hres.
  destruct (page_after_response w api st _
              (page_sends w st (answered_markup w _ r Ha)) Hres Hs)
    as (phrase & rs & Hrg & Hh).
  cbv zeta in Hh. cbn [status body] in Hh.
  change ((200 <=? 200) && (200 <=? 299))%N with true in Hh. cbv iota in Hh.
  rewrite (page_read_all_regrouped [Part000.gemini_delta (reply_text r)] rs Hrg)
    in Hh.
  cbn [flat_map] in Hh. rewrite app_nil_r in Hh.
  exists phrase. split; [exact Hh|].
  intros t Ht. rewrite Hh. cbn [Page.result Page.with_result].
  unfold Part000.gemini_delta, Part000.gemini_text. rewrite Ht. reflexivity.
Qed.

(** X30. Page and part_000 together, provider ollama: when the local model
    replies in reads of whole lines carrying the string fragments texts, the
    result is the concatenation of the fragments, each with its code fences
    stripped, under the status line HTTP 200. *)
Theorem page_shows_unfenced_answer
        (w : world) (api : jsstring -> fetched) (st : Page.state) (r : reply)
        (groups : list (list jsstring)) (texts : list jsstring) :
  Page.provider st = js "ollama" ->
  answered w (page_request st) r ->
  chunks r = map (framed nl) groups ->
  Forall2 ollama_frame (List.concat groups) (map JStr texts) ->
  part000_serves w (Page.request_body st) (api (Page.request_body st)) ->
  exists phrase,
    Page.handleAnalyze api st =
      Page.with_result (flat_map Page.stripCodeFences texts)
        (Page.with_status (js "HTTP 200 " ++ phrase) (Page.started st)).
Proof.
  intros Hp Ha Hch Hfr Hs.
  pose proof (proj1 (answered_result w _ r Ha) Hp) as Hres.
  destruct (page_after_response w api st _
              (page_sends w st (answered_markup w _ r Ha)) Hres Hs)
    as (phrase & rs & Hrg & Hh).
  cbv zeta in Hh. cbn [status body Part000.ollama_response] in Hh.
  change ((200 <=? 200) && (200 <=? 299))%N with true in Hh. cbv iota in Hh.
  exists phrase. rewrite Hh. f_equal.
  apply page_read_all_regrouped.
  cbn [body Part000.ollama_response] in Hrg.
  change (ollama_pump (chunks r))
    with (map delta_line (ollama_deltas (chunks r))) in Hrg.
  rewrite Hch, ollama_deltas_groups in Hrg.
  - rewrite (flat_map_frames _ _ _ _ _ ollama_line_frame Hfr), map_map in Hrg.
    exact Hrg.
  - apply (Forall2_Forall_left _ _ _ _ _ _ (fun l v H => proj1 H) Hfr).
Qed.

(** ** Worked cases *)

Lemma part000_direct_serves (w : world) (st : Page.state) (resp : response) :
  result (Part000.POST w (page_request st)) = Some resp ->
  part000_serves w (Page.request_body st)
    (part000_direct w (Page.request_body st)).
Proof.
  intros Hres. exists (Page.request_json st), resp, [], (body resp).
  split; [apply page_JSON_parse_request|].
  split; [exact Hres|].
  split; [apply regrouped_refl|].
  unfold part000_direct. rewrite page_JSON_parse_request.
  rewrite page_decode_request, Hres. reflexivity.
Qed.

Lemma page_shows_input_error_witness :
  page_error_400 (page_state (js "example.com") [] "ollama" [])
    "No URL/HTML provided."
    (Page.handleAnalyze (part000_direct world_shop)
       (page_state (js "example.com") [] "ollama" [])).
Proof.
  apply (page_shows_input_error world_shop (part000_direct world_shop)
           (page_state (js "example.com") [] "ollama" [])).
  - left. vm_compute. discriminate.
  - apply (part000_direct_serves _ _
             (error_response (js "No URL/HTML provided."))).
    reflexivity.
  - reflexivity.
Defined.


Lemma page_shows_gemini_placeholder_witness :
  exists phrase,
    Page.handleAnalyze (part000_direct (world_of None (Some reply_hi) dom_shop))
      (page_state [] html_shop "gemini" (js "K")) =
      Page.with_result
        (Page.stripCodeFences (Part000.gemini_delta (reply_text reply_hi)))
        (Page.with_status (js "HTTP 200 " ++ phrase)
           (Page.started (page_state [] html_shop "gemini" (js "K")))) /\
    forall t,
      Part000.gemini_extract (reply_text reply_hi) = Some t ->
      Page.result
        (Page.handleAnalyze
           (part000_direct (world_of None (Some reply_hi) dom_shop))
           (page_state [] html_shop "gemini" (js "K"))) =
        js "[gemini ok]" ++ nl ++ js "[empty text]".
Proof.
  apply (page_shows_gemini_placeholder
           (world_of None (Some reply_hi) dom_shop)
           (part000_direct (world_of None (Some reply_hi) dom_shop))
           (page_state [] html_shop "gemini" (js "K")) reply_hi).
  - reflexivity.
  - eexists. split; [left; reflexivity | reflexivity].
  - reflexivity.
  - apply (part000_direct_serves _ _ (Part000.gemini_response reply_hi)).
    reflexivity.
Defined.

Lemma page_shows_unfenced_answer_witness :
  exists phrase,
    Page.handleAnalyze
      (part000_direct (world_of None (Some reply_fenced) dom_shop))
      (page_state [] html_shop "ollama" []) =
      Page.with_result (js "x = 1")
        (Page.with_status (js "HTTP 200 " ++ phrase)
           (Page.started (page_state [] html_shop "ollama" []))).
Proof.
  apply (page_shows_unfenced_answer
           (world_of None (Some reply_fenced) dom_shop)
           (part000_direct (world_of None (Some reply_fenced) dom_shop))
           (page_state [] html_shop "ollama" []) reply_fenced
           [[jq "{'response':'```js'}"]; [jq "{'response':'x = 1'}"];
            [jq "{'response':'```'}"]]
           [js "```js"; js "x = 1"; js "```"]).
  - reflexivity.
  - eexists. split; [left; reflexivity | reflexivity].
  - reflexivity.
  - cbn [List.concat app map].
    repeat (apply Forall2_cons; [unfold ollama_frame; frame_facts|]).
    apply Forall2_nil.
  - apply (part000_direct_serves _ _ (Part000.ollama_response reply_fenced)).
    reflexivity.
Defined.
